(** * A shallow embedding of [src/main.mjs] (extend-vps-exp)

    The renewal script drives a headless browser, solves an inline CAPTCHA,
    re-reads the expiration date and persists it to [expire.txt].  This file
    embeds its pure helpers ([formatChineseDate], [getNextRenewAvailableDate],
    [getExpirationDate]'s post-processing) and the main script as a state and
    exception monad over a world holding the file system, the trace of
    browser/network effects, the console output and the script's mutable
    top-level variables.  Everything the browser, the network and the clock
    answer is an oracle of an environment record.

    JS strings are modelled as UTF-8 byte strings ([string]); every regular
    expression of the script only matches ASCII digits and whole CJK
    characters, so matching on bytes agrees with matching on UTF-16 code
    units.  [js_length] gives the UTF-16 length the script's [.length]
    observes. *)

From Stdlib Require Import ZArith Lia.
From stdpp Require Import base gmap strings list.

From Stdlib Require Import Ascii.
Open Scope string_scope.
(* stdpp marks [String.append] [simpl never]; the proofs below compute with it. *)
#[local] Arguments String.append : simpl nomatch.

(* ------------------------------------------------------------------ *)
(** ** JS string primitives *)

Definition is_digit (c : Ascii.ascii) : bool :=
  let n := Ascii.nat_of_ascii c in (48 <=? n)%nat && (n <=? 57)%nat.

(** [s.length]: UTF-16 code units of the UTF-8 encoded [s]
    (continuation bytes count 0, a four-byte sequence is a surrogate pair). *)
Fixpoint js_length (s : string) : nat :=
  match s with
  | EmptyString => 0
  | String c s' =>
      let n := Ascii.nat_of_ascii c in
      ((if (128 <=? n)%nat && (n <? 192)%nat then 0
        else if (240 <=? n)%nat then 2 else 1) + js_length s')%nat
  end.

Fixpoint zeros (n : nat) : string :=
  match n with O => "" | S n' => String "0"%char (zeros n') end.

(** [s.padStart(n, '0')] *)
Definition padStart0 (n : nat) (s : string) : string :=
  if (n <=? js_length s)%nat then s else zeros (n - js_length s) +:+ s.

Definition digit_char (n : Z) : Ascii.ascii :=
  Ascii.ascii_of_nat (48 + Z.to_nat n).

Fixpoint dec_go (fuel : nat) (n : Z) (acc : string) : string :=
  match fuel with
  | O => String (digit_char n) acc
  | S f =>
      if n <? 10 then String (digit_char n) acc
      else dec_go f (n / 10) (String (digit_char (n mod 10)) acc)
  end%Z.

(** [String(n)] for an integral number: decimal, no padding, a leading
    minus sign for negatives ([Z.to_nat (Z.log2 n) + 1] bits bound the
    number of decimal digits). *)
Definition js_String_of_Z (n : Z) : string :=
  if (n <? 0)%Z then "-" +:+ dec_go (S (Z.to_nat (Z.log2 (- n)))) (- n) ""
  else dec_go (S (Z.to_nat (Z.log2 n))) n "".

(** [Number(s)] on a string of ASCII digits (the regex groups below). *)
Fixpoint digits_value_go (s : string) (acc : Z) : Z :=
  match s with
  | EmptyString => acc
  | String c s' =>
      digits_value_go s' (acc * 10 + (Z.of_nat (Ascii.nat_of_ascii c) - 48))%Z
  end.

Definition js_Number (s : string) : Z := digits_value_go s 0.

(** [haystack.includes(needle)] *)
Definition includes (haystack needle : string) : bool :=
  match String.index 0 needle haystack with Some _ => true | None => false end.

(* ------------------------------------------------------------------ *)
(** ** Regular expressions, with JS's leftmost, greedy, backtracking search *)

(** A literal: consume [p] at the front of [s]. *)
Fixpoint strip_lit (p s : string) : option string :=
  match p with
  | EmptyString => Some s
  | String c p' =>
      match s with
      | String c' s' => if Ascii.eqb c c' then strip_lit p' s' else None
      | EmptyString => None
      end
  end.

(** [\d{n}] *)
Fixpoint digits_n (n : nat) (s : string) : option (string * string) :=
  match n with
  | O => Some ("", s)
  | S n' =>
      match s with
      | String c s' =>
          if is_digit c then
            match digits_n n' s' with
            | Some (d, r) => Some (String c d, r)
            | None => None
            end
          else None
      | EmptyString => None
      end
  end.

(** [\d{1,2}] followed by the continuation [k]: greedy, two digits first,
    backtracking to one digit when the rest of the pattern fails. *)
Definition digits_1_2 {A} (s : string) (k : string -> string -> option A)
    : option A :=
  let one := match digits_n 1 s with Some (d, r) => k d r | None => None end in
  match digits_n 2 s with
  | Some (d, r) => match k d r with Some a => Some a | None => one end
  | None => one
  end.

Definition NEN : string := "年".
Definition GETSU : string := "月".
Definition NICHI : string := "日".

Definition date_text (g : string * string * string) : string :=
  let '(y, mo, d) := g in y +:+ NEN +:+ mo +:+ GETSU +:+ d +:+ NICHI.

(** [(\d{4})年(\d{1,2})月(\d{1,2})日] anchored at the front of [s]; the
    continuation receives the three groups and the rest of the input (the
    whole match is [date_text] of the groups). *)
Definition date_at {A} (s : string)
    (k : string * string * string -> string -> option A) : option A :=
  match digits_n 4 s with
  | None => None
  | Some (y, r1) =>
      match strip_lit NEN r1 with
      | None => None
      | Some r2 =>
          digits_1_2 r2 (fun mo r3 =>
            match strip_lit GETSU r3 with
            | None => None
            | Some r4 =>
                digits_1_2 r4 (fun d r5 =>
                  match strip_lit NICHI r5 with
                  | None => None
                  | Some r6 => k (y, mo, d) r6
                  end)
            end)
      end
  end.

(** [(\d{4})年(\d{2})月(\d{2})日] anchored at the front of [s]. *)
Definition date2_at (s : string) : option (string * string * string) :=
  match digits_n 4 s with
  | None => None
  | Some (y, r1) =>
      match strip_lit NEN r1 with
      | None => None
      | Some r2 =>
          match digits_n 2 r2 with
          | None => None
          | Some (mo, r3) =>
              match strip_lit GETSU r3 with
              | None => None
              | Some r4 =>
                  match digits_n 2 r4 with
                  | None => None
                  | Some (d, r5) =>
                      match strip_lit NICHI r5 with
                      | None => None
                      | Some _ => Some (y, mo, d)
                      end
                  end
              end
          end
      end
  end.

(** Unanchored search: the first match at the leftmost position
    (positions [0 .. length s], the empty suffix included). *)
Fixpoint search {A} (at_ : string -> option A) (s : string) : option A :=
  match at_ s with
  | Some a => Some a
  | None => match s with EmptyString => None | String _ s' => search at_ s' end
  end.

(** [s.match(/(\d{4})年(\d{1,2})月(\d{1,2})日/)], groups 1..3 *)
Definition match_date (s : string) : option (string * string * string) :=
  search (fun t => date_at t (fun g _ => Some g)) s.

(** [s.match(/(\d{4})年(\d{2})月(\d{2})日/)], groups 1..3 *)
Definition match_date2 (s : string) : option (string * string * string) :=
  search date2_at s.

Definition TOO_EARLY_SUFFIX : string := "以降にお試しください".

(** [s.match(/(\d{4}年\d{1,2}月\d{1,2}日)以降にお試しください/)], group 1 *)
Definition match_retry_date (s : string) : option string :=
  search (fun t => date_at t (fun g r =>
    match strip_lit TOO_EARLY_SUFFIX r with
    | Some _ => Some (date_text g)
    | None => None
    end)) s.

(* ------------------------------------------------------------------ *)
(** ** [formatChineseDate] (main.mjs lines 10-15) *)

Definition UNKNOWN : string := "未知".

Definition formatChineseDate (dateStr : string) : string :=
  let m := if String.eqb dateStr "" then None else match_date dateStr in
  match m with
  | None => if String.eqb dateStr "" then UNKNOWN else dateStr
  | Some (y, mo, d) =>
      y +:+ NEN +:+ padStart0 2 mo +:+ GETSU +:+ padStart0 2 d +:+ NICHI
  end.

(* ------------------------------------------------------------------ *)
(** ** JS [Date] arithmetic on local calendar days

    A [Date] built by [new Date(y, m, d)] and only moved by [setDate] sits
    at local midnight, so it is modelled by its day number (days since
    1970-01-01).  [days_from_civil] and [civil_from_days] are the
    proleptic Gregorian conversions (month 1..12).  All values reached from
    a four-digit year and two-digit month/day lie far inside the [Date]
    range, so the invalid-date case does not arise. *)

Open Scope Z_scope.

Definition days_from_civil (y m d : Z) : Z :=
  let y' := if m <=? 2 then y - 1 else y in
  let era := y' / 400 in
  let yoe := y' - era * 400 in
  let mp := if 2 <? m then m - 3 else m + 9 in
  let doy := (153 * mp + 2) / 5 + d - 1 in
  let doe := yoe * 365 + yoe / 4 - yoe / 100 + doy in
  era * 146097 + doe - 719468.

Definition civil_from_days (z0 : Z) : Z * Z * Z :=
  let z := z0 + 719468 in
  let era := z / 146097 in
  let doe := z - era * 146097 in
  let yoe := (doe - doe / 1460 + doe / 36524 - doe / 146096) / 365 in
  let y := yoe + era * 400 in
  let doy := doe - (365 * yoe + yoe / 4 - yoe / 100) in
  let mp := (5 * doy + 2) / 153 in
  let d := doy - (153 * mp + 2) / 5 + 1 in
  let m := if mp <? 10 then mp + 3 else mp - 9 in
  (if m <=? 2 then y + 1 else y, m, d).

(** ECMAScript MakeDay(year, month, date): month zero-based, out-of-range
    months and dates roll over. *)
Definition MakeDay (year month date : Z) : Z :=
  let ym := year + month / 12 in
  let mn := month mod 12 in
  days_from_civil ym (mn + 1) 1 + date - 1.

(** [new Date(y, m, d)]: years 0..99 denote 1900..1999. *)
Definition new_Date (y m d : Z) : Z :=
  MakeDay (if (0 <=? y) && (y <=? 99) then 1900 + y else y) m d.

Definition getFullYear (t : Z) : Z := let '(y, _, _) := civil_from_days t in y.
Definition getMonth (t : Z) : Z := let '(_, m, _) := civil_from_days t in m - 1.
Definition getDate (t : Z) : Z := let '(_, _, d) := civil_from_days t in d.

(** [dt.setDate(date)] *)
Definition setDate (t date : Z) : Z := MakeDay (getFullYear t) (getMonth t) date.

(* ------------------------------------------------------------------ *)
(** ** [getNextRenewAvailableDate] (main.mjs lines 20-27) *)

Definition getNextRenewAvailableDate (chineseDate : string) : string :=
  match match_date2 chineseDate with
  | None => UNKNOWN
  | Some (y, mo, d) =>
      let dt := new_Date (js_Number y) (js_Number mo - 1) (js_Number d) in
      let dt := setDate dt (getDate dt - 1) in
      js_String_of_Z (getFullYear dt) +:+ NEN
        +:+ padStart0 2 (js_String_of_Z (getMonth dt + 1)) +:+ GETSU
        +:+ padStart0 2 (js_String_of_Z (getDate dt)) +:+ NICHI
  end.

Open Scope string_scope.

Definition nl : string := String (Ascii.ascii_of_nat 10) "".

(* ------------------------------------------------------------------ *)
(** ** Whitespace: [\s], [String.prototype.trim]

    The JS white-space and line-terminator set, on UTF-8 bytes:
    TAB, LF, VT, FF, CR, SPACE, U+00A0, U+1680, U+2000..U+200A, U+2028,
    U+2029, U+202F, U+205F, U+3000, U+FEFF.  [ws_prefix_len s] is the byte
    length of the white-space character at the front of [s], if any. *)

Definition ws_prefix_len (s : string) : option nat :=
  match s with
  | String a r =>
      let n := Ascii.nat_of_ascii a in
      if ((9 <=? n) && (n <=? 13))%nat || (n =? 32)%nat then Some 1%nat
      else match r with
      | String b r' =>
          let m := Ascii.nat_of_ascii b in
          if (n =? 194)%nat && (m =? 160)%nat then Some 2%nat
          else match r' with
          | String c _ =>
              let k := Ascii.nat_of_ascii c in
              if (n =? 225)%nat && (m =? 154)%nat && (k =? 128)%nat then Some 3%nat
              else if (n =? 226)%nat && (m =? 128)%nat
                      && (((128 <=? k) && (k <=? 138)) || (k =? 168) || (k =? 169)
                          || (k =? 175))%nat then Some 3%nat
              else if (n =? 226)%nat && (m =? 129)%nat && (k =? 159)%nat then Some 3%nat
              else if (n =? 227)%nat && (m =? 128)%nat && (k =? 128)%nat then Some 3%nat
              else if (n =? 239)%nat && (m =? 187)%nat && (k =? 191)%nat then Some 3%nat
              else None
          | EmptyString => None
          end
      | EmptyString => None
      end
  | EmptyString => None
  end.

(** Split [s] into white-space characters ([true]) and other bytes. *)
Fixpoint ws_lex (fuel : nat) (s : string) : list (bool * string) :=
  match fuel with
  | O => []
  | S f =>
      match s with
      | EmptyString => []
      | String c s' =>
          match ws_prefix_len s with
          | Some n => (true, String.substring 0 n s)
                        :: ws_lex f (String.substring n (String.length s - n) s)
          | None => (false, String c "") :: ws_lex f s'
          end
      end
  end.

Definition tokens (s : string) : list (bool * string) := ws_lex (String.length s) s.

Definition concat_tokens (l : list (bool * string)) : string :=
  foldr (fun t acc => t.2 +:+ acc) "" l.

Fixpoint drop_ws_tokens (l : list (bool * string)) : list (bool * string) :=
  match l with
  | (true, _) :: l' => drop_ws_tokens l'
  | _ => l
  end.

(** [s.replace(/\s/g, '')] *)
Definition remove_ws (s : string) : string :=
  concat_tokens (filter (fun t => negb t.1) (tokens s)).

(** [s.trim()] *)
Definition trim (s : string) : string :=
  concat_tokens (reverse (drop_ws_tokens (reverse (drop_ws_tokens (tokens s))))).

(** [s.replace(/[\s:]/g, '-')] *)
Definition replace_ws_colon (s : string) : string :=
  concat_tokens (map (fun t => if t.1 || String.eqb t.2 ":" then (false, "-") else t)
                     (tokens s)).

(* ------------------------------------------------------------------ *)
(** ** [getExpirationDate]'s scan of the (th, td) pairs (lines 118-125)

    The page-side part (collecting each [th] with its next [td], both
    trimmed, ['无'] when there is no [td]) is the browser's; the pairs are
    an oracle. *)

Definition EXPIRY_LABEL : string := "利用期限".

Fixpoint scan_th_td (rows : list (string * string)) : string :=
  match rows with
  | [] => ""
  | (th, td) :: rows' =>
      if String.eqb th EXPIRY_LABEL then
        let tdStr := remove_ws td in
        match match_date tdStr with
        | Some g => date_text g
        | None => td
        end
      else scan_th_td rows'
  end.

(* ------------------------------------------------------------------ *)
(** ** [getBeijingTimeString] (lines 133-136)

    [now] is [Date.now()] in ms, [tz] the runner's local offset in ms
    ([getFullYear] and friends read local time). *)

Definition getBeijingTimeString (now tz : Z) : string :=
  let t := (now + 8 * 60 * 60 * 1000 + tz)%Z in
  let day := (t / 86400000)%Z in
  let ms := (t mod 86400000)%Z in
  let '(y, m, d) := civil_from_days day in
  js_String_of_Z y +:+ "-" +:+ padStart0 2 (js_String_of_Z m) +:+ "-"
    +:+ padStart0 2 (js_String_of_Z d) +:+ " "
    +:+ padStart0 2 (js_String_of_Z (ms / 3600000)) +:+ ":"
    +:+ padStart0 2 (js_String_of_Z ((ms / 60000) mod 60)).

(* ------------------------------------------------------------------ *)
(** ** The world the script runs in *)

(** Observable effects on the browser, the network and the file system,
    in program order. *)
Inductive Event :=
  | EvParseProxyUrl                      (* new URL(process.env.PROXY_SERVER) *)
  | EvLaunch                             (* puppeteer.launch *)
  | EvNewPage                            (* browser.newPage *)
  | EvProxyAuth                          (* page.authenticate *)
  | EvScreencast                         (* page.screencast *)
  | EvReadFile (path : string)           (* fs.readFileSync *)
  | EvWriteFile (path : string)          (* fs.writeFileSync *)
  | EvGoto (url : string)
  | EvFill (selector value : string)     (* page.locator(selector).fill(value) *)
  | EvClick (selector : string)          (* page.locator(selector).click() *)
  | EvWaitNav                            (* page.waitForNavigation *)
  | EvWaitSelector (selector : string)
  | EvSleep (ms : Z)                     (* await setTimeout(ms) *)
  | EvEvaluateThTd (k : nat)             (* k-th getExpirationDate's page.evaluate *)
  | EvProbeCaptcha (attempt : nat)       (* page.$('img[src^="data:"]') *)
  | EvReadImgSrc (attempt : nat)         (* captchaImg.evaluate(img => img.src) *)
  | EvPageContent                        (* page.content() *)
  | EvRecognize (attempt : nat) (image : string)  (* POST to the recognizer *)
  | EvScreenshot (path : string)         (* captchaImg.screenshot *)
  | EvInjectAutoSubmit                   (* page.evaluate(() => setInterval(...)) *)
  | EvWaitNavRace (attempt : nat)        (* waitForNavigation raced with the click *)
  | EvReload                             (* page.reload *)
  | EvEvaluateBody                       (* document.body.innerText *)
  | EvRecorderStop                       (* recorder.stop() *)
  | EvBrowserClose                       (* browser.close() *)
  | EvWebdavPut (url : string)           (* PUT of the recording *)
  | EvTelegramPost (text : string).      (* the chat notification *)

Record World := mkWorld {
  fs : gmap string string;          (* file name -> contents *)
  trace : list Event;
  console : list string;
  lastExpireDate : string;
  infoMessage : string;
  scriptErrorMessage : string
}.

Inductive result (A : Type) := Ok (a : A) | Throw (message : string).
Arguments Ok {A} a.
Arguments Throw {A} message.

(** A computation of the script: state passing with JS exceptions
    (an exception carries its [e.message]). *)
Definition M (A : Type) : Type := World -> World * result A.

Global Instance M_ret : MRet M := fun A a w => (w, Ok a).
Global Instance M_bind : MBind M := fun A B k m w =>
  match m w with
  | (w', Ok a) => k a w'
  | (w', Throw e) => (w', Throw e)
  end.

Definition throw {A} (e : string) : M A := fun w => (w, Throw e).

(** [try { m } catch (e) { h(e.message) }] *)
Definition try_catch {A} (m : M A) (h : string -> M A) : M A := fun w =>
  match m w with
  | (w', Ok a) => (w', Ok a)
  | (w', Throw e) => h e w'
  end.

(** [try { m } catch (e) { h } finally { f }]: an exception of [f]
    replaces the result. *)
Definition try_catch_finally {A} (m : M A) (h : string -> M A) (f : M unit)
    : M A := fun w =>
  let '(w1, r1) := try_catch m h w in
  match f w1 with
  | (w2, Ok _) => (w2, r1)
  | (w2, Throw e) => (w2, Throw e)
  end.

Definition get_world : M World := fun w => (w, Ok w).

Definition record (ev : Event) (w : World) : World :=
  mkWorld (fs w) (trace w ++ [ev]) (console w) (lastExpireDate w)
    (infoMessage w) (scriptErrorMessage w).

(** [console.log] / [warn] / [error] *)
Definition log (line : string) : M unit := fun w =>
  (mkWorld (fs w) (trace w) (console w ++ [line]) (lastExpireDate w)
     (infoMessage w) (scriptErrorMessage w), Ok tt).

Definition set_lastExpireDate (v : string) : M unit := fun w =>
  (mkWorld (fs w) (trace w) (console w) v (infoMessage w) (scriptErrorMessage w), Ok tt).
Definition set_infoMessage (v : string) : M unit := fun w =>
  (mkWorld (fs w) (trace w) (console w) (lastExpireDate w) v (scriptErrorMessage w), Ok tt).
Definition set_scriptErrorMessage (v : string) : M unit := fun w =>
  (mkWorld (fs w) (trace w) (console w) (lastExpireDate w) (infoMessage w) v, Ok tt).

Definition set_file (path contents : string) (w : World) : World :=
  mkWorld (<[path := contents]> (fs w)) (trace w) (console w) (lastExpireDate w)
    (infoMessage w) (scriptErrorMessage w).

(** What the browser, the network, the file system and the clock answer. *)
Record Env := mkEnv {
  (* an awaited operation rejects, given the effects so far *)
  env_fail : list Event -> Event -> option string;
  (* PROXY_SERVER: unset, or set (with inline credentials or not) *)
  env_proxy : option bool;
  env_email : string;
  env_password : string;
  (* the trimmed (th, td) pairs seen by the k-th getExpirationDate *)
  env_th_td : nat -> list (string * string);
  (* the src of img[src^="data:"] at a CAPTCHA attempt, if present *)
  env_captcha_img : nat -> option string;
  env_page_html : string;
  (* the recognizer's text at an attempt; None when the fetch rejects *)
  env_recognize : nat -> option string;
  (* the waitForNavigation of an attempt's race settles fulfilled *)
  env_nav : nat -> bool;
  env_screenshot : string -> string;
  env_body : string;
  env_now : list Event -> Z;
  env_tz : Z;
  (* recording.webm as left by recorder.stop(), if written *)
  env_recording : option string;
  (* WEBDAV_URL (credentials set) and WEBDAV_SAVE_PATH, if configured *)
  env_webdav : option (string * string);
  (* the PUT's outcome: None ok, Some error message *)
  env_put : option string;
  (* TG_BOT_TOKEN and TG_CHAT_ID both set *)
  env_tg : bool
}.

Inductive Outcome := Success | Unchanged | NotYetEligible | Error.

(* ------------------------------------------------------------------ *)
(** ** The script (main.mjs lines 140-355) *)

Section Script.

Variable env : Env.

(** An awaited browser or file-system operation: recorded, and rejecting
    when the environment says so. *)
Definition op (ev : Event) : M unit := fun w =>
  let w' := record ev w in
  match env_fail env (trace w) ev with
  | Some e => (w', Throw e)
  | None => (w', Ok tt)
  end.

(** [await setTimeout(ms)] *)
Definition sleep (ms : Z) : M unit := fun w => (record (EvSleep ms) w, Ok tt).

(** [Promise.all([a, b])]: both run; the first rejection wins. *)
Definition all2 (a b : M unit) : M unit := fun w =>
  let '(w1, r1) := a w in
  let '(w2, r2) := b w1 in
  match r1, r2 with
  | Throw e, _ => (w2, Throw e)
  | _, Throw e => (w2, Throw e)
  | _, _ => (w2, Ok tt)
  end.

Definition now_string : M string := fun w =>
  (w, Ok (getBeijingTimeString (env_now env (trace w)) (env_tz env))).

Definition existsSync (path : string) : M bool := fun w =>
  (w, Ok (match fs w !! path with Some _ => true | None => false end)).

Definition readFileSync (path : string) : M string := fun w =>
  let '(w', r) := op (EvReadFile path) w in
  match r with
  | Throw e => (w', Throw e)
  | Ok _ =>
      match fs w !! path with
      | Some c => (w', Ok c)
      | None => (w', Throw ("ENOENT: no such file or directory, open '" +:+ path +:+ "'"))
      end
  end.

Definition writeFileSync (path contents : string) : M unit := fun w =>
  let '(w', r) := op (EvWriteFile path) w in
  match r with
  | Throw e => (w', Throw e)
  | Ok _ => (set_file path contents w', Ok tt)
  end.

(** [getExpirationDate(page)]: the k-th call; a rejected evaluate gives ''. *)
Definition getExpirationDate (k : nat) : M string := fun w =>
  let '(w', r) := op (EvEvaluateThTd k) w in
  match r with
  | Throw _ => (w', Ok "")
  | Ok _ => (w', Ok (scan_th_td (env_th_td env k)))
  end.

Definition captcha_probe (attempt : nat) : M (option string) := fun w =>
  let '(w', r) := op (EvProbeCaptcha attempt) w in
  match r with
  | Throw e => (w', Throw e)
  | Ok _ => (w', Ok (env_captcha_img env attempt))
  end.

Definition page_content : M string := fun w =>
  let '(w', r) := op EvPageContent w in
  match r with
  | Throw e => (w', Throw e)
  | Ok _ => (w', Ok (env_page_html env))
  end.

(** The recognizer's [fetch(...).then(r => r.text())]. *)
Definition recognize (attempt : nat) (image : string) : M (option string) := fun w =>
  (record (EvRecognize attempt image) w, Ok (env_recognize env attempt)).

Definition screenshot (path : string) : M unit := fun w =>
  let '(w', r) := op (EvScreenshot path) w in
  match r with
  | Throw e => (w', Throw e)
  | Ok _ => (set_file path (env_screenshot env path) w', Ok tt)
  end.

(** [Promise.allSettled([waitForNavigation, click])]: never rejects; the
    first settled value says whether navigation happened. *)
Definition nav_race (attempt : nat) (selector : string) : M bool := fun w =>
  let w1 := record (EvWaitNavRace attempt) w in
  let w2 := record (EvClick selector) w1 in
  (w2, Ok (env_nav env attempt)).

Definition evaluate_body : M string := fun w =>
  let '(w', r) := op EvEvaluateBody w in
  match r with
  | Throw e => (w', Throw e)
  | Ok _ => (w', Ok (env_body env))
  end.

Definition recorder_stop : M unit := fun w =>
  let '(w', r) := op EvRecorderStop w in
  match r with
  | Throw e => (w', Throw e)
  | Ok _ =>
      match env_recording env with
      | Some c => (set_file "recording.webm" c w', Ok tt)
      | None => (w', Ok tt)
      end
  end.

(** [uploadToWebDAV(localFile, remoteFile)] (lines 62-95) *)
Definition strip_trailing_slash (s : string) : string :=
  match String.index 0 "/" (String.substring (String.length s - 1) 1 s) with
  | Some _ => String.substring 0 (String.length s - 1) s
  | None => s
  end.

(** The message of [fs.statSync(path)] for a missing file. *)
Definition ENOENT_stat (path : string) : string :=
  "ENOENT: no such file or directory, stat '" +:+ path +:+ "'".

Definition uploadToWebDAV (localFile remoteFile : string) : M string :=
  match env_webdav env with
  | None => log "WebDAV is not configured, skipping upload." ;; mret ""
  | Some (webdavUrl, webdavSavePath) =>
      let remoteDir := strip_trailing_slash webdavSavePath in
      let fullRemotePath :=
        if String.eqb remoteDir "" then remoteFile else remoteDir +:+ "/" +:+ remoteFile in
      let url := strip_trailing_slash webdavUrl +:+ "/" +:+ fullRemotePath in
      fun w =>
        match fs w !! localFile with
        | None =>
            (* fs.statSync(localFile) throws before the PUT *)
            (log "WebDAV upload error:" ;;
             mret ("❌ WebDAV 上传失败: `" +:+ ENOENT_stat localFile +:+ "`")) w
        | Some _ =>
            let w' := record (EvWebdavPut url) w in
            match env_put env with
            | None =>
                log "WebDAV upload successful:" ;;
                mret ("✅ 录屏已成功上传到 WebDAV。" +:+ nl +:+ "路径: `" +:+ fullRemotePath +:+ "`")
            | Some e =>
                log "WebDAV upload error:" ;;
                mret ("❌ WebDAV 上传失败: `" +:+ e +:+ "`")
            end w'
        end
  end.

(** [sendTelegramMessage(message)] (lines 32-56): delivery failures are
    logged only. *)
Definition sendTelegramMessage (message : string) : M unit :=
  if env_tg env then
    fun w =>
      let w' := record (EvTelegramPost message) w in
      match env_fail env (trace w) (EvTelegramPost message) with
      | Some _ => log "Error sending Telegram message:" w'
      | None => (w', Ok tt)
      end
  else log "Telegram bot token or chat id not set, skipping notification.".

(** *** The CAPTCHA loop (lines 208-268) *)

Definition maxCaptchaTries : nat := 3.
Definition dquote : string := String (Ascii.ascii_of_nat 34) "".
Definition CAPTCHA_INPUT : string :=
  "[placeholder=" +:+ dquote +:+ "上の画像的数字を入力" +:+ dquote +:+ "]".
Definition CONTINUE_BUTTON : string := "text=無料VPSの利用を継続する".

Definition captcha_failed_path (attempt : nat) : string :=
  "captcha_failed_" +:+ js_String_of_Z (Z.of_nat attempt) +:+ ".png".

(** One iteration; [true] when it leaves the loop with [solved = true]
    ([break]), [false] when the loop goes on ([continue] or the reload). *)
Definition captcha_attempt (attempt : nat) : M bool :=
  captchaImg ← captcha_probe attempt;
  match captchaImg with
  | None =>
      log "无验证码，跳过验证码填写" ;;
      html ← page_content;
      writeFileSync "no_captcha.html" html ;;
      mret true
  | Some src =>
      op (EvReadImgSrc attempt) ;;
      let base64 := src in
      code ← recognize attempt base64;
      match code with
      | None =>
          log "验证码识别接口失败" ;;
          screenshot (captcha_failed_path attempt) ;;
          mret false
      | Some code =>
          if String.eqb code "" || (js_length code <? 4)%nat then
            log "验证码识别失败" ;;
            screenshot (captcha_failed_path attempt) ;;
            mret false
          else
            op (EvFill CAPTCHA_INPUT code) ;;
            op EvInjectAutoSubmit ;;
            nav_race attempt CONTINUE_BUTTON ≫= λ nav : bool,
            if nav then
              log "验证码尝试成功" ;;
              mret true
            else
              log "验证码尝试失败，刷新重试..." ;;
              op EvReload ;;
              mret false
      end
  end.

(** [for (let attempt = 1; attempt <= maxCaptchaTries; attempt++)], with
    [remaining = maxCaptchaTries - attempt + 1]; the result is [solved]. *)
Fixpoint captcha_loop (remaining attempt : nat) : M bool :=
  match remaining with
  | O => mret false
  | S r =>
      captcha_attempt attempt ≫= λ solved : bool,
      if solved then mret true else captcha_loop r (S attempt)
  end.

(** *** The renewal workflow (the [try] block, lines 173-318) *)

Definition expireDateFile : string := "expire.txt".
Definition LOGIN_URL : string := "https://secure.xserver.ne.jp/xapanel/login/xserver/".
Definition PANEL_URL : string := "https://secure.xserver.ne.jp/xapanel/xvps/index".
Definition TOO_EARLY_MARKER : string := "利用期限の1日前から更新手続きが可能です".
Definition CAPTCHA_ERROR : string := "验证码识别失败：尝试多次未成功".
Definition NOT_FOUND_ERROR : string :=
  "无法找到 VPS 到期日。续期后未能定位到期日，脚本可能需要更新。".

Definition or_default (s d : string) : string := if String.eqb s "" then d else s.

Definition not_yet_message (renewAvailableDate currentExpireDate t : string) : string :=
  "🗓️ 未到续费时间" +:+ nl +:+ nl +:+ "网站提示需要到期前一天才能操作。" +:+ nl
  +:+ "可续期日期: `" +:+ or_default renewAvailableDate UNKNOWN +:+ "`" +:+ nl
  +:+ "当前到期日: `" +:+ or_default currentExpireDate UNKNOWN +:+ "`" +:+ nl +:+ nl
  +:+ "北京时间: " +:+ t.

Definition success_message (newExpireDate nextRenewDate t : string) : string :=
  "🎉 VPS 续费成功！" +:+ nl +:+ nl
  +:+ "- 新到期日: `" +:+ or_default newExpireDate "无" +:+ "`" +:+ nl
  +:+ "- 下次可续期日期: `" +:+ nextRenewDate +:+ "`" +:+ nl +:+ nl
  +:+ "北京时间: " +:+ t.

Definition fail_message (newExpireDate t : string) : string :=
  "⚠️ VPS 续费失败或未执行！" +:+ nl +:+ nl
  +:+ "到期日未发生变化，当前仍为: `" +:+ newExpireDate +:+ "`" +:+ nl
  +:+ "请检查录屏或日志确认续期流程是否正常。" +:+ nl +:+ nl
  +:+ "北京时间: " +:+ t.

Definition error_message (e t : string) : string :=
  "🚨 **VPS 续期脚本执行出错** 🚨" +:+ nl +:+ nl
  +:+ "错误信息: `" +:+ e +:+ "`" +:+ nl +:+ nl
  +:+ "北京时间: " +:+ t.

(** Lines 174-205: read the persisted date, log in, open the contract page,
    read the current expiration date once, initiate the renewal.  Returns
    [currentExpireDate]. *)
Definition before_captcha : M string :=
  existsSync expireDateFile ≫= λ ex : bool,
  (if ex then c ← readFileSync expireDateFile; set_lastExpireDate (trim c)
   else mret tt) ;;
  log "Navigating and logging in..." ;;
  op (EvGoto LOGIN_URL) ;;
  op (EvFill "#memberid" (env_email env)) ;;
  op (EvFill "#user_password" (env_password env)) ;;
  all2 (op EvWaitNav) (op (EvClick "text=ログインする")) ;;
  log "Navigating to VPS panel..." ;;
  op (EvGoto PANEL_URL) ;;
  log "Starting renewal process..." ;;
  op (EvClick ".contract__menuIcon") ;;
  op (EvClick "text=契約情報") ;;
  op EvWaitNav ;;
  op (EvWaitSelector "th") ;;
  sleep 5000 ;;
  currentExpireDateRaw ← getExpirationDate 0;
  let currentExpireDate := formatChineseDate currentExpireDateRaw in
  op (EvClick "text=更新する") ;;
  sleep 3000 ;;
  op (EvClick "text=引き続き無料VPSの利用を継続する") ;;
  op EvWaitNav ;;
  mret currentExpireDate.

(** Lines 299-316: the outcome classification of the fresh date. *)
Definition classify (newExpireDate nextRenewDate : string) : M Outcome :=
  w ← get_world;
  if negb (String.eqb newExpireDate "")
     && negb (String.eqb newExpireDate (formatChineseDate (lastExpireDate w))) then
    t ← now_string;
    let successMessage := success_message newExpireDate nextRenewDate t in
    log successMessage ;;
    set_infoMessage successMessage ;;
    writeFileSync expireDateFile newExpireDate ;;
    mret Success
  else if negb (String.eqb newExpireDate "") then
    t ← now_string;
    let failMessage := fail_message newExpireDate t in
    log failMessage ;;
    set_infoMessage failMessage ;;
    mret Unchanged
  else throw NOT_FOUND_ERROR.

(** Lines 270-317: after the CAPTCHA step. *)
Definition after_captcha (currentExpireDate : string) : M Outcome :=
  bodyText ← evaluate_body;
  let notYetTimeMessage := includes bodyText TOO_EARLY_MARKER in
  if notYetTimeMessage then
    let renewAvailableDate :=
      match match_retry_date bodyText with
      | Some d => formatChineseDate d
      | None => ""
      end in
    t ← now_string;
    set_infoMessage (not_yet_message renewAvailableDate currentExpireDate t) ;;
    w ← get_world;
    log (infoMessage w) ;;
    mret NotYetEligible
  else
    log "Proceeding with the final renewal step..." ;;
    op (EvClick CONTINUE_BUTTON) ;;
    op EvWaitNav ;;
    log "Returned to panel after renewal." ;;
    op (EvGoto PANEL_URL) ;;
    op (EvClick ".contract__menuIcon") ;;
    op (EvClick "text=契約情報") ;;
    op EvWaitNav ;;
    op (EvWaitSelector "th") ;;
    sleep 3000 ;;
    newExpireDateRaw ← getExpirationDate 1;
    let newExpireDate := formatChineseDate newExpireDateRaw in
    let nextRenewDate := getNextRenewAvailableDate newExpireDate in
    classify newExpireDate nextRenewDate.

Definition renewal : M Outcome :=
  currentExpireDate ← before_captcha;
  captcha_loop maxCaptchaTries 1 ≫= λ solved : bool,
  if negb solved then throw CAPTCHA_ERROR
  else after_captcha currentExpireDate.

(** The [catch] block (lines 319-321). *)
Definition on_error (e : string) : M Outcome :=
  log "An error occurred during the renewal process:" ;;
  t ← now_string;
  set_scriptErrorMessage (error_message e t) ;;
  mret Error.

(** The [finally] block (lines 322-355). *)
Definition recordingPath : string := "recording.webm".

Definition final_notification (scriptError info webdavMessage : string) : string :=
  if negb (String.eqb scriptError "") then
    if negb (String.eqb webdavMessage "") then
      scriptError +:+ nl +:+ nl +:+ "---" +:+ nl +:+ webdavMessage
    else scriptError
  else if negb (String.eqb info "") then
    if negb (String.eqb webdavMessage "") then
      info +:+ nl +:+ nl +:+ "---" +:+ nl +:+ webdavMessage
    else info
  else webdavMessage.

Definition FINISHED_LINE : string := "Script finished. Closing browser and saving recording.".

Definition cleanup : M unit :=
  log FINISHED_LINE ;;
  sleep 5000 ;;
  recorder_stop ;;
  op EvBrowserClose ;;
  existsSync recordingPath ≫= λ ex : bool,
  webdavMessage ←
    (if ex then
       t ← now_string;
       let timestamp := replace_ws_colon t in
       let remoteFileName := "vps-renewal_" +:+ timestamp +:+ ".webm" in
       uploadToWebDAV recordingPath remoteFileName
     else mret "");
  w ← get_world;
  let finalNotification :=
    final_notification (scriptErrorMessage w) (infoMessage w) webdavMessage in
  if negb (String.eqb finalNotification "") then sendTelegramMessage finalNotification
  else mret tt.

(** Lines 140-166: launch the browser and start recording (outside any
    [try]: a rejection here ends the process). *)
Definition setup : M unit :=
  (match env_proxy env with Some _ => op EvParseProxyUrl | None => mret tt end) ;;
  op EvLaunch ;;
  op EvNewPage ;;
  try_catch
    (match env_proxy env with
     | Some true => op EvParseProxyUrl ;; op EvProxyAuth
     | _ => mret tt
     end)
    (fun _ => log "代理认证配置出错:") ;;
  op EvScreencast.

(** Lines 168-171: the top-level [let]s. *)
Definition init_vars : M unit :=
  set_lastExpireDate "" ;; set_infoMessage "" ;; set_scriptErrorMessage "".

Definition script : M Outcome :=
  setup ;;
  init_vars ;;
  try_catch_finally renewal on_error cleanup.

End Script.

(* ------------------------------------------------------------------ *)
(** ** Auxiliary definitions for the statements *)

Fixpoint all_digits (s : string) : bool :=
  match s with
  | EmptyString => true
  | String c s' => is_digit c && all_digits s'
  end.

(** A string of exactly [n] ASCII digits. *)
Definition digit_string (n : nat) (s : string) : Prop :=
  String.length s = n /\ all_digits s = true.

Open Scope Z_scope.

(** The Gregorian calendar, for stating what "the day before" is. *)
Definition is_leap (y : Z) : bool :=
  ((y mod 4 =? 0) && negb (y mod 100 =? 0)) || (y mod 400 =? 0).

Definition days_in_month (y m : Z) : Z :=
  if m =? 2 then (if is_leap y then 29 else 28)
  else if (m =? 4) || (m =? 6) || (m =? 9) || (m =? 11) then 30
  else 31.

Definition valid_date (y m d : Z) : Prop :=
  1 <= m <= 12 /\ 1 <= d <= days_in_month y m.

Definition prev_day (y m d : Z) : Z * Z * Z :=
  if 1 <? d then (y, m, d - 1)
  else if 1 <? m then (y, m - 1, days_in_month y (m - 1))
  else (y - 1, 12, 31).

(** [YYYY年MM月DD日] with the year zero-padded to four digits (the input
    shape of [getNextRenewAvailableDate]). *)
Definition zh_date4 (y m d : Z) : string :=
  padStart0 4 (js_String_of_Z y) +:+ NEN +:+ padStart0 2 (js_String_of_Z m)
    +:+ GETSU +:+ padStart0 2 (js_String_of_Z d) +:+ NICHI.

(** The shape [getNextRenewAvailableDate] prints: [String(year)], month and
    day padded to two digits. *)
Definition zh_date (t : Z * Z * Z) : string :=
  let '(y, m, d) := t in
  js_String_of_Z y +:+ NEN +:+ padStart0 2 (js_String_of_Z m)
    +:+ GETSU +:+ padStart0 2 (js_String_of_Z d) +:+ NICHI.

(** The [Date] arithmetic of [getNextRenewAvailableDate] on numbers. *)
Definition prev_via_Date (y m d : Z) : Z * Z * Z :=
  let dt := new_Date y (m - 1) d in
  let dt := setDate dt (getDate dt - 1) in
  (getFullYear dt, getMonth dt + 1, getDate dt).

(** The digits [dec_go] prepends: no leading zero unless the number is 0. *)
Definition dec_digits_ok (p : string) (n : Z) : Prop :=
  all_digits p = true /\ digits_value_go p 0 = n /\
  (1 <= String.length p)%nat /\ n < 10 ^ Z.of_nat (String.length p) /\
  (String.length p = 1%nat \/ 10 ^ (Z.of_nat (String.length p) - 1) <= n).

Open Scope string_scope.

(* ------------------------------------------------------------------ *)
(** ** Observations of a run *)

Fixpoint count_ev (p : Event -> bool) (l : list Event) : nat :=
  match l with
  | [] => 0
  | e :: l' => ((if p e then 1 else 0) + count_ev p l')%nat
  end.

Fixpoint count_line (s : string) (l : list string) : nat :=
  match l with
  | [] => 0
  | x :: l' => ((if String.eqb x s then 1 else 0) + count_line s l')%nat
  end.

Definition is_tg (e : Event) : bool :=
  match e with EvTelegramPost _ => true | _ => false end.
Definition is_probe (e : Event) : bool :=
  match e with EvProbeCaptcha _ => true | _ => false end.
Definition is_recognize (e : Event) : bool :=
  match e with EvRecognize _ _ => true | _ => false end.

(** A CAPTCHA probe of an attempt numbered in [lo .. hi]. *)
Definition probe_within (lo hi : nat) (e : Event) : Prop :=
  forall n, e = EvProbeCaptcha n -> (lo <= n <= hi)%nat.

(** What the CAPTCHA input is filled with is a code of 4 or more UTF-16
    units. *)
Definition fill_ok (e : Event) : Prop :=
  forall c, e = EvFill CAPTCHA_INPUT c -> c <> "" /\ (4 <= js_length c)%nat.

(** A step that leaves [expire.txt], the number of [FINISHED_LINE] lines
    and the number of chat notifications as they were. *)
Definition frame (w w' : World) : Prop :=
  fs w' !! expireDateFile = fs w !! expireDateFile /\
  count_line FINISHED_LINE (console w') = count_line FINISHED_LINE (console w) /\
  count_ev is_tg (trace w') = count_ev is_tg (trace w).

Definition framed {A} (m : M A) : Prop := forall w, frame w (fst (m w)).

(** The same without [expire.txt]. *)
Definition obs_frame (w w' : World) : Prop :=
  count_line FINISHED_LINE (console w') = count_line FINISHED_LINE (console w) /\
  count_ev is_tg (trace w') = count_ev is_tg (trace w).

Definition obs_framed {A} (m : M A) : Prop := forall w, obs_frame w (fst (m w)).

(** A step of the [finally] block after its first line: [expire.txt] and
    the [FINISHED_LINE] count kept, at most one chat notification. *)
Definition posts_at_most_once {A} (m : M A) : Prop := forall w,
  fs (fst (m w)) !! expireDateFile = fs w !! expireDateFile /\
  count_line FINISHED_LINE (console (fst (m w))) = count_line FINISHED_LINE (console w) /\
  (count_ev is_tg (trace (fst (m w))) <= S (count_ev is_tg (trace w)))%nat.

(** [m] only appends to the trace, and every appended event satisfies [Q]. *)
Definition tr_ok (Q : Event -> Prop) {A} (m : M A) : Prop := forall w,
  exists ext, trace (fst (m w)) = (trace w ++ ext)%list /\ Forall Q ext.

(** An event of a CAPTCHA attempt after its probe and image recognition. *)
Definition attempt_tail_ev (e : Event) : Prop :=
  is_probe e = false /\ is_recognize e = false /\ fill_ok e.

(** The [finally] block's effect: [expire.txt] kept, one [FINISHED_LINE],
    at most one chat notification. *)
Definition cleanup_effect (w w' : World) : Prop :=
  fs w' !! expireDateFile = fs w !! expireDateFile /\
  count_line FINISHED_LINE (console w') = S (count_line FINISHED_LINE (console w)) /\
  (count_ev is_tg (trace w') <= S (count_ev is_tg (trace w)))%nat.

(** [expire.txt] after the workflow: written with a fresh, changed date on
    [Success], untouched otherwise. *)
Definition expire_file_rule (w : World) (res : World * result Outcome) : Prop :=
  let '(w', r) := res in
  (r = Ok Success ->
     exists d, fs w' !! expireDateFile = Some d /\ d <> "" /\
               d <> formatChineseDate (lastExpireDate w')) /\
  (r <> Ok Success -> fs w' !! expireDateFile = fs w !! expireDateFile).

(** The environment [env] with the recognizer's fetch rejecting at attempt
    [a]. *)
Definition env_recognize_rejects (env : Env) (a : nat) : Env :=
  mkEnv (env_fail env) (env_proxy env) (env_email env) (env_password env)
    (env_th_td env) (env_captcha_img env) (env_page_html env)
    (fun n => if Nat.eqb n a then None else env_recognize env n)
    (env_nav env) (env_screenshot env) (env_body env) (env_now env) (env_tz env)
    (env_recording env) (env_webdav env) (env_put env) (env_tg env).

(* ------------------------------------------------------------------ *)
(** ** Concrete runs *)

Definition no_failure : list Event -> Event -> option string := fun _ _ => None.

(** A runner with WebDAV and Telegram configured, no proxy, nothing
    rejecting unless [fail] says so, 2025-07-07 00:00 UTC as the clock. *)
Definition test_env (fail : list Event -> Event -> option string)
    (th_td : nat -> list (string * string)) (img : nat -> option string)
    (recog : nat -> option string) (body : string) : Env :=
  mkEnv fail None "user@example.com" "password" th_td img "<html></html>" recog
    (fun _ => true) (fun _ => "PNG") body (fun _ => 1751846400000%Z) 0%Z
    (Some "WEBM") (Some ("https://dav.example/", "vps/")) None true.

Definition expiry_rows (before after : string) (k : nat) : list (string * string) :=
  match k with
  | O => [(EXPIRY_LABEL, before)]
  | _ => [(EXPIRY_LABEL, after)]
  end.

Definition start_world (persisted : string) : World :=
  mkWorld {[ expireDateFile := persisted ]} [] [] "" "" "".

(** A runner whose [expire.txt] holds 2025-07-07 in the site's format. *)
Definition world_0707 : World := start_world ("2025年07月07日" +:+ nl).

(** The state right after the persisted "2025-07-07" has been read. *)
Definition world_read_dash : World :=
  mkWorld {[ expireDateFile := "2025-07-07" ]} [] [] "2025-07-07" "" "".

Definition CAPTCHA_PNG : string := "data:image/png;base64,iVBORw0KGgo=".

Definition TOO_EARLY_BODY : string :=
  "更新手続き" +:+ nl +:+ TOO_EARLY_MARKER +:+ "。" +:+ nl
  +:+ "2025年9月6日" +:+ TOO_EARLY_SUFFIX.

(** A renewal that moves the date from 2025-07-07 to 2025-08-07. *)
Definition env_renewed : Env :=
  test_env no_failure (expiry_rows "2025年7月7日" "2025年8月7日")
    (fun _ => None) (fun _ => None) "".

(** The contract page shows no expiry row after the renewal. *)
Definition env_no_expiry_row : Env :=
  test_env no_failure
    (fun k => match k with O => [(EXPIRY_LABEL, "2025年7月7日")] | _ => [] end)
    (fun _ => None) (fun _ => None) "".

(** A CAPTCHA solved on the first attempt, then the too-early page. *)
Definition env_captcha_then_too_early : Env :=
  test_env no_failure (expiry_rows "2025年8月7日" "2025年8月7日")
    (fun _ => Some CAPTCHA_PNG) (fun _ => Some "1234") TOO_EARLY_BODY.

(** The scenario persisted "2025-07-07", fresh "2025年08月07日". *)
Definition env_fresh_0807 : Env :=
  test_env no_failure (expiry_rows "2025年07月07日" "2025年08月07日")
    (fun _ => None) (fun _ => None) "".

(** A CAPTCHA on every attempt, the recognizer never reachable. *)
Definition env_captcha_unsolved : Env :=
  test_env no_failure (expiry_rows "2025年7月7日" "2025年7月7日")
    (fun _ => Some CAPTCHA_PNG) (fun _ => None) "".

(** The recognizer answers a two-digit code. *)
Definition env_short_code : Env :=
  test_env no_failure (expiry_rows "2025年7月7日" "2025年7月7日")
    (fun _ => Some CAPTCHA_PNG) (fun _ => Some "12") "".

(** [puppeteer.launch] rejects. *)
Definition env_launch_fails : Env :=
  test_env (fun _ ev => match ev with EvLaunch => Some "Failed to launch the browser process" | _ => None end)
    (expiry_rows "2025年7月7日" "2025年8月7日") (fun _ => None) (fun _ => None) "".

(* ------------------------------------------------------------------ *)
(** ** Further definitions: predicates of the proofs below, part_000's
    reader and classification, further concrete runs *)

(** A (th, td) row whose header is not 利用期限. *)
Definition unlabelled (row : string * string) : Prop := row.1 <> EXPIRY_LABEL.

(** The string ends in "/". *)
Fixpoint ends_in_slash (s : string) : bool :=
  match s with
  | EmptyString => false
  | String c EmptyString => Ascii.eqb c "/"
  | String _ s' => ends_in_slash s'
  end.

(** The computation never ends in [Error]. *)
Definition not_error (m : M Outcome) : Prop := forall w, snd (m w) <> Ok Error.

(** The computation leaves [scriptErrorMessage] alone. *)
Definition keeps_err {A} (m : M A) : Prop :=
  forall w, scriptErrorMessage (fst (m w)) = scriptErrorMessage w.

(** The characters of a Beijing time string. *)
Definition ts_char (c : ascii) : bool :=
  is_digit c || Ascii.eqb c "-" || Ascii.eqb c " " || Ascii.eqb c ":".

(** Every character satisfies [p]. *)
Fixpoint all_chars (p : ascii -> bool) (s : string) : bool :=
  match s with EmptyString => true | String c s' => p c && all_chars p s' end.

(** Spaces and colons replaced by dashes, character by character. *)
Fixpoint dash_ws_colon (s : string) : string :=
  match s with
  | EmptyString => EmptyString
  | String c s' =>
      String (if Ascii.eqb c " " || Ascii.eqb c ":" then "-"%char else c) (dash_ws_colon s')
  end.

(** A digit or a dash. *)
Definition digit_or_dash (c : ascii) : bool := is_digit c || Ascii.eqb c "-".

(** [s.replace(from, to)] with a one-character string pattern: the first
    occurrence only. *)
Fixpoint replace_first (from to : ascii) (s : string) : string :=
  match s with
  | EmptyString => EmptyString
  | String c s' => if Ascii.eqb c from then String to s' else String c (replace_first from to s')
  end.

(** part_000 [getBeijingTimeString] (lines 100-103): "YYYY-MM-DD_HH-mm". *)
Definition old_getBeijingTimeString (now tz : Z) : string :=
  let t := (now + 8 * 60 * 60 * 1000 + tz)%Z in
  let day := (t / 86400000)%Z in
  let ms := (t mod 86400000)%Z in
  let '(y, m, d) := civil_from_days day in
  js_String_of_Z y +:+ "-" +:+ padStart0 2 (js_String_of_Z m) +:+ "-"
    +:+ padStart0 2 (js_String_of_Z d) +:+ "_"
    +:+ padStart0 2 (js_String_of_Z (ms / 3600000)) +:+ "-"
    +:+ padStart0 2 (js_String_of_Z ((ms / 60000) mod 60)).

(** part_000 [getExpirationDate]'s page-side loop (lines 81-91): each [th]
    with its raw [textContent] and the raw [textContent] of its
    [nextElementSibling], if any.  A labelled [th] without a sibling does
    not stop the loop. *)
Fixpoint old_scan_th (rows : list (string * option string)) : string :=
  match rows with
  | [] => ""
  | (th, sib) :: rows' =>
      if String.eqb (trim th) EXPIRY_LABEL then
        match sib with
        | Some td =>
            match match_date2 td with
            | Some g => trim (date_text g)
            | None => trim td
            end
        | None => old_scan_th rows'
        end
      else old_scan_th rows'
  end.

(** part_000 line 162: the success message. *)
Definition SUCCESS_FIRST : string := "首次检测".

Definition old_success_message (newExpireDate lastExpireDate t : string) : string :=
  "🎉 VPS 续费成功！" +:+ nl +:+ nl
  +:+ "- 新到期日: `" +:+ newExpireDate +:+ "`" +:+ nl
  +:+ "- 上次到期日: `" +:+ or_default lastExpireDate SUCCESS_FIRST +:+ "`" +:+ nl +:+ nl
  +:+ "北京时间: " +:+ t.

Section Old.
Variable env : Env.
(** the [th]/sibling texts seen by the k-th call of the old reader *)
Variable old_rows : nat -> list (string * option string).

(** part_000 lines 77-97: a rejected evaluation gives ''. *)
Definition old_getExpirationDate (k : nat) : M string := fun w =>
  let '(w', r) := op env (EvEvaluateThTd k) w in
  match r with
  | Throw _ => (w', Ok "")
  | Ok _ => (w', Ok (old_scan_th (old_rows k)))
  end.

(** [getBeijingTimeString().replace('_', ' ')] *)
Definition old_now_string : M string := fun w =>
  (w, Ok (replace_first "_" " " (old_getBeijingTimeString (env_now env (trace w)) (env_tz env)))).

(** part_000 lines 161-172: the raw comparison with the persisted date. *)
Definition old_classify (newExpireDate : string) : M Outcome :=
  w ← get_world;
  if negb (String.eqb newExpireDate "")
     && negb (String.eqb newExpireDate (lastExpireDate w)) then
    t ← old_now_string;
    let successMessage := old_success_message newExpireDate (lastExpireDate w) t in
    log successMessage ;;
    set_infoMessage successMessage ;;
    writeFileSync env expireDateFile newExpireDate ;;
    mret Success
  else if negb (String.eqb newExpireDate "") then
    t ← old_now_string;
    let failMessage := fail_message newExpireDate t in
    log failMessage ;;
    set_infoMessage failMessage ;;
    mret Unchanged
  else throw NOT_FOUND_ERROR.
End Old.

(** A byte that does not start a white-space character. *)
Definition plain_byte (c : ascii) : bool :=
  let n := Ascii.nat_of_ascii c in
  negb (((9 <=? n) && (n <=? 13)) || (n =? 32) || (n =? 194) || (n =? 225) || (n =? 226)
        || (n =? 227) || (n =? 239))%nat.

(** No byte of the string starts a white-space character. *)
Fixpoint all_plain (s : string) : bool :=
  match s with EmptyString => true | String c s' => plain_byte c && all_plain s' end.

(** A part_000 row the reader passes over: its trimmed header is not
    利用期限, or it has no sibling cell. *)
Definition old_skipped (row : string * option string) : Prop :=
  String.eqb (trim row.1) EXPIRY_LABEL = false \/ row.2 = None.

(** [PROXY_SERVER] set with credentials; [page.authenticate] rejects. *)
Definition env_proxy_auth_rejected : Env :=
  mkEnv (fun _ ev => match ev with EvProxyAuth => Some "auth rejected" | _ => None end)
    (Some true) "user@example.com" "password" (expiry_rows "2025年7月7日" "2025年8月7日")
    (fun _ => None) "<html></html>" (fun _ => None) (fun _ => true) (fun _ => "PNG") ""
    (fun _ => 1751846400000%Z) 0%Z (Some "WEBM") None None false.

(** part_000: a page with a note row, a bare 利用期限 header, then the
    labelled cell. *)
Definition old_rows_padded (k : nat) : list (string * option string) :=
  [("備考", Some "-"); (EXPIRY_LABEL, None);
   (" " +:+ EXPIRY_LABEL +:+ " ", Some "2025年08月07日 まで")].

(** A world in which the recording has been saved. *)
Definition world_recorded : World :=
  mkWorld {[ recordingPath := "WEBM" ]} [] [] "" "" "".

(** A world whose run has produced an info message. *)
Definition world_info : World :=
  mkWorld {[ expireDateFile := "2025-07-07" ]} [] [] "2025-07-07" "VPS 续费成功" "".

(* ================================================================== *)
(** * Proofs *)

(** ** Regular-expression lemmas *)

Lemma search_unfold {A} (f : string -> option A) s :
  search f s = match f s with
               | Some a => Some a
               | None => match s with EmptyString => None | String _ s' => search f s' end
               end.
Proof. destruct s; reflexivity. Qed.

Lemma search_some {A} (f : string -> option A) s a :
  search f s = Some a -> exists t, f t = Some a.
Proof.
  induction s as [|c s IH]; rewrite search_unfold; intros H.
  - destruct (f "") eqn:E; [exists ""; congruence | discriminate].
  - destruct (f (String c s)) eqn:E; [exists (String c s); congruence | auto].
Qed.

Lemma strip_lit_app p r : strip_lit p (p +:+ r) = Some r.
Proof. induction p; simpl; [reflexivity | rewrite Ascii.eqb_refl; exact IHp]. Qed.

Lemma digits_n_app n d r :
  digit_string n d -> digits_n n (d +:+ r) = Some (d, r).
Proof.
  revert n; induction d as [|c d IH]; intros n [Hl Hd]; simpl in *.
  - subst; reflexivity.
  - destruct n as [|n]; [discriminate|].
    apply andb_prop in Hd as [Hc Hd]. simpl. rewrite Hc.
    rewrite (IH n); [reflexivity | split; [lia | exact Hd]].
Qed.

Lemma digits_n_some n s d r :
  digits_n n s = Some (d, r) -> s = d +:+ r /\ digit_string n d.
Proof.
  revert s d; induction n as [|n IH]; intros s d H; simpl in H.
  - inversion H; subst. split; [reflexivity | split; reflexivity].
  - destruct s as [|c s]; [discriminate|].
    destruct (is_digit c) eqn:Hc; [|discriminate].
    destruct (digits_n n s) as [[d' r']|] eqn:E; [|discriminate].
    inversion H; subst. destruct (IH _ _ E) as [-> [Hl Hd]].
    split; [reflexivity | split; simpl; [lia | rewrite Hc; exact Hd]].
Qed.

Lemma digits_1_2_some {A} s (k : string -> string -> option A) a :
  digits_1_2 s k = Some a ->
  exists d r, k d r = Some a /\ s = d +:+ r /\
              (digit_string 1 d \/ digit_string 2 d).
Proof.
  unfold digits_1_2. intros H.
  destruct (digits_n 2 s) as [[d r]|] eqn:E2.
  - destruct (k d r) eqn:Ek.
    + inversion H; subst. apply digits_n_some in E2 as [-> Hd].
      exists d, r. auto.
    + destruct (digits_n 1 s) as [[d1 r1]|] eqn:E1; [|discriminate].
      apply digits_n_some in E1 as [-> Hd]. exists d1, r1. auto.
  - destruct (digits_n 1 s) as [[d1 r1]|] eqn:E1; [|discriminate].
    apply digits_n_some in E1 as [-> Hd]. exists d1, r1. auto.
Qed.

Lemma date_at_some {A} s (k : string * string * string -> string -> option A) a :
  date_at s k = Some a ->
  exists y mo d r, k (y, mo, d) r = Some a /\ digit_string 4 y /\
    (digit_string 1 mo \/ digit_string 2 mo) /\ (digit_string 1 d \/ digit_string 2 d).
Proof.
  unfold date_at. intros H.
  destruct (digits_n 4 s) as [[y r1]|] eqn:E4; [|discriminate].
  apply digits_n_some in E4 as [_ Hy].
  destruct (strip_lit NEN r1) as [r2|]; [|discriminate].
  apply digits_1_2_some in H as (mo & r3 & H & _ & Hmo).
  destruct (strip_lit GETSU r3) as [r4|]; [|discriminate].
  apply digits_1_2_some in H as (d & r5 & H & _ & Hd).
  destruct (strip_lit NICHI r5) as [r6|]; [|discriminate].
  exists y, mo, d, r6. auto.
Qed.

Lemma date_at_app {A} y mo d r (k : string * string * string -> string -> option A) a :
  digit_string 4 y -> digit_string 2 mo -> digit_string 2 d ->
  k (y, mo, d) r = Some a ->
  date_at (y +:+ NEN +:+ mo +:+ GETSU +:+ d +:+ NICHI +:+ r) k = Some a.
Proof.
  intros Hy Hmo Hd Hk. unfold date_at.
  rewrite (digits_n_app 4 y _ Hy), strip_lit_app.
  unfold digits_1_2 at 1. rewrite (digits_n_app 2 mo _ Hmo), strip_lit_app.
  unfold digits_1_2. rewrite (digits_n_app 2 d _ Hd), strip_lit_app, Hk.
  reflexivity.
Qed.

Lemma match_date_some s y mo d :
  match_date s = Some (y, mo, d) ->
  digit_string 4 y /\ (digit_string 1 mo \/ digit_string 2 mo) /\
  (digit_string 1 d \/ digit_string 2 d).
Proof.
  unfold match_date. intros H. apply search_some in H as [t H].
  apply date_at_some in H as (y' & mo' & d' & r & H & Hy & Hmo & Hd).
  inversion H; subst. auto.
Qed.

Lemma match_date_exact y mo d :
  digit_string 4 y -> digit_string 2 mo -> digit_string 2 d ->
  match_date (y +:+ NEN +:+ mo +:+ GETSU +:+ d +:+ NICHI) = Some (y, mo, d).
Proof.
  intros Hy Hmo Hd. unfold match_date. rewrite search_unfold.
  assert (E : NICHI = NICHI +:+ "") by reflexivity.
  rewrite E. rewrite (date_at_app y mo d "" _ (y, mo, d)); auto.
Qed.

Lemma js_length_cons c s :
  js_length (String c s) =
  ((if (128 <=? Ascii.nat_of_ascii c) && (Ascii.nat_of_ascii c <? 192) then 0
    else if 240 <=? Ascii.nat_of_ascii c then 2 else 1) + js_length s)%nat.
Proof. reflexivity. Qed.

Lemma js_length_digits n s : digit_string n s -> js_length s = n.
Proof.
  revert n; induction s as [|c s IH]; intros n [Hl Hd].
  - simpl in Hl. subst. reflexivity.
  - simpl in Hl. change (is_digit c && all_digits s = true) in Hd.
    apply andb_prop in Hd as [Hc Hd].
    unfold is_digit in Hc. apply andb_prop in Hc as [H1 H2].
    apply Nat.leb_le in H1, H2.
    destruct n as [|n]; [discriminate|].
    rewrite js_length_cons, (IH n); [|split; [lia | exact Hd]].
    set (k := Ascii.nat_of_ascii c) in *.
    destruct (Nat.leb_spec 128 k); [lia|].
    destruct (Nat.leb_spec 240 k); [lia|]. reflexivity.
Qed.

Lemma padStart0_2_digits s :
  digit_string 1 s \/ digit_string 2 s -> digit_string 2 (padStart0 2 s).
Proof.
  intros [H|H]; unfold padStart0; rewrite (js_length_digits _ _ H); simpl.
  - destruct H as [Hl Hd]. split; simpl; [lia | exact Hd].
  - exact H.
Qed.

Lemma padStart0_2_idem s : digit_string 2 s -> padStart0 2 s = s.
Proof. intros H. unfold padStart0. rewrite (js_length_digits _ _ H). reflexivity. Qed.

(** ** [formatChineseDate] *)

Lemma formatChineseDate_match s y mo d :
  match_date s = Some (y, mo, d) ->
  formatChineseDate s = y +:+ NEN +:+ padStart0 2 mo +:+ GETSU +:+ padStart0 2 d +:+ NICHI.
Proof.
  intros Hm. unfold formatChineseDate.
  destruct (String.eqb s "") eqn:Es.
  - apply String.eqb_eq in Es. subst. discriminate.
  - rewrite Hm. reflexivity.
Qed.

Lemma formatChineseDate_nonempty s : formatChineseDate s <> "".
Proof.
  unfold formatChineseDate.
  destruct (String.eqb s "") eqn:Es; [discriminate|].
  destruct (match_date s) as [[[y mo] d]|].
  - destruct y; discriminate.
  - apply String.eqb_neq in Es. exact Es.
Qed.

(** Claim C7: on every date string (more generally, on every string),
    normalising twice gives the same as normalising once. *)
Theorem formatChineseDate_idempotent s :
  formatChineseDate (formatChineseDate s) = formatChineseDate s.
Proof.
  destruct (match_date s) as [[[y mo] d]|] eqn:Em.
  - rewrite (formatChineseDate_match _ _ _ _ Em).
    destruct (match_date_some _ _ _ _ Em) as (Hy & Hmo & Hd).
    apply padStart0_2_digits in Hmo, Hd.
    rewrite (formatChineseDate_match _ y (padStart0 2 mo) (padStart0 2 d));
      [|apply match_date_exact; assumption].
    rewrite (padStart0_2_idem _ Hmo), (padStart0_2_idem _ Hd). reflexivity.
  - unfold formatChineseDate at 2.
    destruct (String.eqb s "") eqn:Es.
    + apply String.eqb_eq in Es. subst. reflexivity.
    + rewrite Em. unfold formatChineseDate. rewrite Es, Em. reflexivity.
Qed.

(** ** Calendar arithmetic: [civil_from_days] inverts [days_from_civil] *)

Open Scope Z_scope.

Lemma yoe_inv c b a doy doe :
  0 <= c <= 3 -> 0 <= b <= 24 -> 0 <= a <= 3 ->
  (0 <= doy <= 364 \/ (doy = 365 /\ a = 3 /\ (b <> 24 \/ c = 3))) ->
  doe = 36524 * c + 1461 * b + 365 * a + doy ->
  (doe - doe / 1460 + doe / 36524 - doe / 146096) / 365 = 100 * c + 4 * b + a.
Proof. intros. subst doe. Z.div_mod_to_equations. lia. Qed.

(* the era/doe layer *)
Lemma cfd_layer E Y doy :
  0 <= Y <= 399 ->
  (0 <= doy <= 364 \/ (doy = 365 /\ Y mod 4 = 3 /\ ((Y mod 100) / 4 <> 24 \/ Y / 100 = 3))) ->
  civil_from_days (E * 146097 + (Y * 365 + Y / 4 - Y / 100 + doy) - 719468) =
  let mp := (5 * doy + 2) / 153 in
  let d := doy - (153 * mp + 2) / 5 + 1 in
  let m := if mp <? 10 then mp + 3 else mp - 9 in
  (if m <=? 2 then Y + E * 400 + 1 else Y + E * 400, m, d).
Proof.
  intros HY Hdoy. unfold civil_from_days. cbv zeta.
  set (doe := Y * 365 + Y / 4 - Y / 100 + doy).
  assert (Hdoe : doe = 36524 * (Y / 100) + 1461 * ((Y mod 100) / 4) + 365 * (Y mod 4) + doy).
  { subst doe. Z.div_mod_to_equations. lia. }
  assert (Hyoe : (doe - doe / 1460 + doe / 36524 - doe / 146096) / 365 = Y).
  { rewrite (yoe_inv (Y / 100) ((Y mod 100) / 4) (Y mod 4) doy doe);
      [ | Z.div_mod_to_equations; lia .. | exact Hdoy | exact Hdoe].
    Z.div_mod_to_equations; lia. }
  assert (Hb : 0 <= doe < 146097) by (rewrite Hdoe; Z.div_mod_to_equations; lia).
  replace (E * 146097 + doe - 719468 + 719468) with (doe + E * 146097) by ring.
  rewrite Z.div_add by lia. rewrite (Z.div_small doe) by lia. rewrite Z.add_0_l.
  replace (doe + E * 146097 - E * 146097) with doe by ring.
  rewrite Hyoe.
  replace (doe - (365 * Y + Y / 4 - Y / 100)) with doy by (subst doe; ring).
  reflexivity.
Qed.

Lemma leap_yoe y :
  is_leap y = true ->
  let Y := (y - 1) - (y - 1) / 400 * 400 in
  Y mod 4 = 3 /\ ((Y mod 100) / 4 <> 24 \/ Y / 100 = 3).
Proof.
  unfold is_leap. intros H. cbv zeta.
  apply orb_true_iff in H. rewrite andb_true_iff, negb_true_iff in H.
  rewrite !Z.eqb_eq in H. rewrite Z.eqb_neq in H.
  Z.div_mod_to_equations. lia.
Qed.

Lemma days_in_month_le y m : days_in_month y m <= 31.
Proof. unfold days_in_month. destruct (m =? 2), (is_leap y); simpl; try destruct (_ || _); lia. Qed.

Lemma civil_from_days_from_civil y m d :
  valid_date y m d -> civil_from_days (days_from_civil y m d) = (y, m, d).
Proof.
  intros [Hm Hd].
  assert (Hdoy : let mp := if 2 <? m then m - 3 else m + 9 in
                 let doy := (153 * mp + 2) / 5 + d - 1 in
                 (5 * doy + 2) / 153 = mp /\
                 (0 <= doy <= 364 \/ (doy = 365 /\ m = 2 /\ d = 29 /\ is_leap y = true))).
  { pose proof (days_in_month_le y m).
    assert (Hc : m = 1 \/ m = 2 \/ m = 3 \/ m = 4 \/ m = 5 \/ m = 6 \/ m = 7 \/
                 m = 8 \/ m = 9 \/ m = 10 \/ m = 11 \/ m = 12) by lia.
    destruct_or! Hc; subst m; unfold days_in_month in Hd; simpl in Hd |- *;
      [ | destruct (is_leap y) eqn:L; [destruct (Z.eq_dec d 29) | ] | .. ];
      (split; [Z.div_mod_to_equations; lia | ]);
      first [ right; subst; repeat split; Z.div_mod_to_equations; lia
            | left; Z.div_mod_to_equations; lia ]. }
  cbv zeta in Hdoy.
  unfold days_from_civil. cbv zeta.
  set (y' := if m <=? 2 then y - 1 else y).
  set (mp := if 2 <? m then m - 3 else m + 9).
  set (doy := (153 * mp + 2) / 5 + d - 1).
  destruct Hdoy as [Hmp Hdoy]. fold mp doy in Hmp, Hdoy.
  rewrite cfd_layer.
  - cbv zeta. rewrite Hmp.
    replace (doy - (153 * mp + 2) / 5 + 1) with d by (subst doy; ring).
    replace (y' - y' / 400 * 400 + y' / 400 * 400) with y' by ring.
    subst y' mp.
    repeat (match goal with
            | |- context [Z.ltb ?a ?b] => destruct (Z.ltb_spec a b)
            | |- context [Z.leb ?a ?b] => destruct (Z.leb_spec a b)
            end; cbv beta iota in *);
      first [lia | repeat f_equal; lia].
  - Z.div_mod_to_equations. lia.
  - destruct Hdoy as [Hdoy | (Hdoy & -> & -> & L)]; [left; exact Hdoy | right].
    split; [exact Hdoy|]. apply leap_yoe in L. exact L.
Qed.

Lemma days_from_civil_day y m d :
  days_from_civil y m d = days_from_civil y m 1 + d - 1.
Proof. unfold days_from_civil. cbv zeta. ring. Qed.

Lemma MakeDay_civil y m d :
  1 <= m <= 12 -> MakeDay y (m - 1) d = days_from_civil y m d.
Proof.
  intros Hm. unfold MakeDay. cbv zeta.
  rewrite (Z.div_small (m - 1) 12), (Z.mod_small (m - 1) 12) by lia.
  rewrite Z.add_0_r, Z.sub_add. symmetry. apply days_from_civil_day.
Qed.

Lemma days_from_civil_month y m :
  2 <= m <= 12 ->
  days_from_civil y m 1 - 1 = days_from_civil y (m - 1) (days_in_month y (m - 1)).
Proof.
  intros Hm.
  assert (Hc : m = 2 \/ m = 3 \/ m = 4 \/ m = 5 \/ m = 6 \/ m = 7 \/
               m = 8 \/ m = 9 \/ m = 10 \/ m = 11 \/ m = 12) by lia.
  destruct_or! Hc; subst m; unfold days_from_civil, days_in_month; simpl;
    try (Z.div_mod_to_equations; lia).
  unfold is_leap. destruct (y mod 4 =? 0) eqn:E4, (y mod 100 =? 0) eqn:E100, (y mod 400 =? 0) eqn:E400;
    simpl; rewrite ?Z.eqb_eq, ?Z.eqb_neq in *; Z.div_mod_to_equations; lia.
Qed.

Lemma days_from_civil_year y :
  days_from_civil y 1 1 - 1 = days_from_civil (y - 1) 12 31.
Proof. unfold days_from_civil. simpl. Z.div_mod_to_equations. lia. Qed.

Lemma valid_prev_day y m d :
  valid_date y m d ->
  let '(y', m', d') := prev_day y m d in
  valid_date y' m' d' /\ days_from_civil y' m' d' = days_from_civil y m d - 1.
Proof.
  intros [Hm Hd]. unfold prev_day.
  destruct (Z.ltb_spec 1 d).
  - split; [split; lia|]. rewrite (days_from_civil_day y m d), (days_from_civil_day y m (d - 1)). ring.
  - assert (d = 1) as -> by lia.
    destruct (Z.ltb_spec 1 m).
    + pose proof (days_from_civil_month y m).
      split; [|lia]. split; [lia|]. split; [|lia].
      unfold days_in_month. destruct (_ =? 2), (is_leap y); try destruct (_ || _); lia.
    + assert (m = 1) as -> by lia. rewrite <- days_from_civil_year.
      split; [|reflexivity]. split; [lia|]. unfold days_in_month. simpl. lia.
Qed.

Lemma prev_via_Date_correct y m d :
  100 <= y -> valid_date y m d -> prev_via_Date y m d = prev_day y m d.
Proof.
  intros Hy Hv. pose proof Hv as [Hm _].
  unfold prev_via_Date, new_Date.
  replace ((0 <=? y) && (y <=? 99)) with false
    by (symmetry; apply andb_false_iff; right; apply Z.leb_gt; lia).
  rewrite MakeDay_civil by exact Hm.
  pose proof (civil_from_days_from_civil _ _ _ Hv) as H0.
  assert (G1 : getFullYear (days_from_civil y m d) = y) by (unfold getFullYear; rewrite H0; reflexivity).
  assert (G2 : getMonth (days_from_civil y m d) = m - 1) by (unfold getMonth; rewrite H0; reflexivity).
  assert (G3 : getDate (days_from_civil y m d) = d) by (unfold getDate; rewrite H0; reflexivity).
  unfold setDate. rewrite G1, G2, G3, MakeDay_civil by exact Hm.
  replace (days_from_civil y m (d - 1)) with (days_from_civil y m d - 1)
    by (rewrite (days_from_civil_day y m d), (days_from_civil_day y m (d - 1)); ring).
  pose proof (valid_prev_day y m d Hv) as Hp.
  destruct (prev_day y m d) as [[y' m'] d'] eqn:E. destruct Hp as [Hv' <-].
  unfold getFullYear, getMonth, getDate. rewrite (civil_from_days_from_civil _ _ _ Hv').
  f_equal; f_equal; ring.
Qed.

Open Scope string_scope.

(** ** Decimal spelling: [String(n)], [padStart] and [Number] *)

Lemma str_app_assoc a b c : (a +:+ b) +:+ c = a +:+ (b +:+ c).
Proof. induction a as [|x a IH]; simpl; [reflexivity | rewrite IH; reflexivity]. Qed.

Lemma str_app_nil_r a : a +:+ "" = a.
Proof. induction a as [|x a IH]; simpl; [reflexivity | rewrite IH; reflexivity]. Qed.

Lemma str_length_app a b : String.length (a +:+ b) = (String.length a + String.length b)%nat.
Proof. induction a as [|x a IH]; simpl; [reflexivity | rewrite IH; reflexivity]. Qed.

Lemma all_digits_app a b : all_digits (a +:+ b) = all_digits a && all_digits b.
Proof.
  induction a as [|x a IH]; simpl; [reflexivity|].
  rewrite IH. apply andb_assoc.
Qed.

Lemma digits_value_go_app a b acc :
  digits_value_go (a +:+ b) acc = digits_value_go b (digits_value_go a acc).
Proof. revert acc; induction a as [|x a IH]; intros acc; simpl; [reflexivity | apply IH]. Qed.

Lemma zeros_spec k :
  String.length (zeros k) = k /\ all_digits (zeros k) = true /\
  digits_value_go (zeros k) 0 = 0%Z.
Proof. induction k as [|k (IH1 & IH2 & IH3)]; simpl; auto. Qed.

Lemma digit_char_spec k :
  (0 <= k <= 9)%Z ->
  is_digit (digit_char k) = true /\
  (Z.of_nat (Ascii.nat_of_ascii (digit_char k)) - 48 = k)%Z.
Proof.
  intros Hk. unfold digit_char, is_digit.
  rewrite Ascii.nat_ascii_embedding by lia.
  split; [apply andb_true_iff; split; apply Nat.leb_le; lia | lia].
Qed.

Open Scope Z_scope.

Lemma dec_go_spec f n acc :
  0 <= n < 10 ^ Z.of_nat (S f) ->
  exists p, dec_go f n acc = p +:+ acc /\ dec_digits_ok p n.
Proof.
  revert n acc; induction f as [|f IH]; intros n acc Hn.
  - simpl in Hn. exists (String (digit_char n) "").
    destruct (digit_char_spec n) as [H1 H2]; [lia|].
    split; [reflexivity|]. unfold dec_digits_ok; cbn [digits_value_go all_digits String.length].
      rewrite H1. split; [reflexivity|]. simpl Z.of_nat. lia.
  - simpl dec_go. destruct (Z.ltb_spec n 10).
    + exists (String (digit_char n) "").
      destruct (digit_char_spec n) as [H1 H2]; [lia|].
      split; [reflexivity|]. unfold dec_digits_ok; cbn [digits_value_go all_digits String.length].
      rewrite H1. split; [reflexivity|]. simpl Z.of_nat. lia.
    + assert (Hn' : 0 <= n / 10 < 10 ^ Z.of_nat (S f)).
      { rewrite Nat2Z.inj_succ, Z.pow_succ_r in Hn by lia.
        split; [apply Z.div_pos; lia | apply Z.div_lt_upper_bound; lia]. }
      destruct (IH (n / 10) (String (digit_char (n mod 10)) acc) Hn')
        as (p & Hp & Ha & Hv & Hl1 & Hlt & Hge).
      exists (p +:+ String (digit_char (n mod 10)) "").
      split; [rewrite Hp, str_app_assoc; reflexivity|].
      destruct (digit_char_spec (n mod 10)) as [H1 H2]; [pose proof (Z.mod_pos_bound n 10); lia|].
      unfold dec_digits_ok.
      rewrite all_digits_app, digits_value_go_app, str_length_app, Ha, Hv.
      cbn [digits_value_go all_digits String.length].
      rewrite H1, H2, Nat2Z.inj_add. change (Z.of_nat 1) with 1.
      assert (Hpow : 10 ^ (Z.of_nat (String.length p) + 1) = 10 ^ Z.of_nat (String.length p) * 10)
        by (rewrite Z.pow_add_r by lia; reflexivity).
      replace (Z.of_nat (String.length p) + 1 - 1) with (Z.of_nat (String.length p)) by lia.
      rewrite Hpow. clear Hpow.
      split; [reflexivity|]. split; [pose proof (Z.div_mod n 10); lia|].
      split; [lia|]. split; [Z.div_mod_to_equations; nia|].
      right. destruct Hge as [Hge | Hge].
      * rewrite Hge. change (10 ^ Z.of_nat 1) with 10. lia.
      * assert (Hpow : 10 ^ Z.of_nat (String.length p) =
                       10 ^ (Z.of_nat (String.length p) - 1) * 10)
          by (rewrite Z.mul_comm, <- Z.pow_succ_r by lia; f_equal; lia).
        rewrite Hpow. Z.div_mod_to_equations. nia.
Qed.

Lemma js_String_of_Z_spec n :
  0 <= n -> dec_digits_ok (js_String_of_Z n) n.
Proof.
  intros Hn. unfold js_String_of_Z.
  destruct (Z.ltb_spec n 0); [lia|].
  destruct (dec_go_spec (S (Z.to_nat (Z.log2 n))) n "") as (p & -> & Hp).
  - split; [exact Hn|].
    rewrite !Nat2Z.inj_succ, Z2Nat.id by apply Z.log2_nonneg.
    destruct (Z.eq_dec n 0) as [->|Hn0]; [simpl; lia|].
    destruct (Z.log2_spec n) as [_ Hlog]; [lia|].
    eapply Z.lt_le_trans; [exact Hlog|].
    apply Z.le_trans with (10 ^ Z.succ (Z.log2 n)).
    + apply Z.pow_le_mono_l. lia.
    + apply Z.pow_le_mono_r; lia.
  - rewrite str_app_nil_r. exact Hp.
Qed.

Lemma padStart0_spelled w n :
  (1 <= w)%nat -> 0 <= n < 10 ^ Z.of_nat w ->
  digit_string w (padStart0 w (js_String_of_Z n)) /\
  js_Number (padStart0 w (js_String_of_Z n)) = n.
Proof.
  intros Hw Hn.
  destruct (js_String_of_Z_spec n) as (Ha & Hv & Hl1 & Hlt & Hge); [lia|].
  set (p := js_String_of_Z n) in *.
  assert (HL : (String.length p <= w)%nat).
  { destruct Hge as [-> | Hge]; [lia|].
    destruct (Nat.le_gt_cases (String.length p) w) as [?|Hgt]; [assumption|].
    assert (10 ^ Z.of_nat w <= 10 ^ (Z.of_nat (String.length p) - 1))
      by (apply Z.pow_le_mono_r; lia).
    lia. }
  unfold padStart0. rewrite (js_length_digits (String.length p) p) by (split; auto).
  destruct (Nat.leb_spec w (String.length p)).
  - assert (String.length p = w) as <- by lia. split; [split; auto | exact Hv].
  - destruct (zeros_spec (w - String.length p)) as (Z1 & Z2 & Z3).
    unfold js_Number. rewrite digits_value_go_app, Z3, Hv.
    split; [|reflexivity]. split.
    + rewrite str_length_app, Z1. lia.
    + rewrite all_digits_app, Z2, Ha. reflexivity.
Qed.

Open Scope string_scope.

Lemma match_date2_exact y mo d :
  digit_string 4 y -> digit_string 2 mo -> digit_string 2 d ->
  match_date2 (y +:+ NEN +:+ mo +:+ GETSU +:+ d +:+ NICHI) = Some (y, mo, d).
Proof.
  intros Hy Hmo Hd. unfold match_date2. rewrite search_unfold. unfold date2_at.
  rewrite (digits_n_app 4 y _ Hy), strip_lit_app, (digits_n_app 2 mo _ Hmo),
    strip_lit_app, (digits_n_app 2 d _ Hd).
  reflexivity.
Qed.

Lemma getNextRenewAvailableDate_prev_day_from_100 y m d :
  (100 <= y <= 9999)%Z -> valid_date y m d ->
  getNextRenewAvailableDate (zh_date4 y m d) = zh_date (prev_day y m d).
Proof.
  intros Hy Hv. pose proof Hv as [Hm Hd].
  pose proof (days_in_month_le y m).
  destruct (padStart0_spelled 4 y) as [Sy Ny]; [lia | simpl; lia |].
  destruct (padStart0_spelled 2 m) as [Sm Nm]; [lia | simpl; lia |].
  destruct (padStart0_spelled 2 d) as [Sd Nd]; [lia | simpl; lia |].
  unfold getNextRenewAvailableDate, zh_date4.
  rewrite (match_date2_exact _ _ _ Sy Sm Sd). cbv beta iota zeta.
  rewrite Ny, Nm, Nd.
  rewrite <- (prev_via_Date_correct y m d) by (lia || exact Hv).
  unfold prev_via_Date, zh_date. cbv beta iota zeta.
  reflexivity.
Qed.

(** A four-digit year is spelled with four digits. *)
Lemma padStart0_4_id y :
  (1000 <= y <= 9999)%Z -> padStart0 4 (js_String_of_Z y) = js_String_of_Z y.
Proof.
  intros Hy. destruct (js_String_of_Z_spec y) as (Hd & _ & H1 & Hlt & Hge); [lia|].
  assert (L : String.length (js_String_of_Z y) = 4%nat).
  { remember (String.length (js_String_of_Z y)) as n eqn:En. clear En.
    destruct n as [|[|[|[|[|k]]]]]; try reflexivity; simpl in Hlt, Hge, H1; try lia.
    exfalso. destruct Hge as [Hge|Hge]; [discriminate|].
    assert (P : (10 ^ 4 <= 10 ^ (Z.of_nat (S (S (S (S (S k))))) - 1))%Z)
      by (apply Z.pow_le_mono_r; lia).
    simpl in P. lia. }
  unfold padStart0. rewrite (js_length_digits 4 _ (conj L Hd)). reflexivity.
Qed.

(** Claim C10 (as the code has it): for a valid calendar date with a year
    from 1001 to 9999, written zero-padded as YYYY年MM月DD日, the result is
    the previous calendar day in the same zero-padded form; any input
    without the zero-padded pattern gives 未知. *)
Theorem getNextRenewAvailableDate_prev_day :
  (forall y m d, (1001 <= y <= 9999)%Z -> valid_date y m d ->
     getNextRenewAvailableDate (zh_date4 y m d) =
       (let '(y', m', d') := prev_day y m d in zh_date4 y' m' d')) /\
  (forall s, match_date2 s = None -> getNextRenewAvailableDate s = UNKNOWN).
Proof.
  split.
  - intros y m d Hy Hv.
    rewrite (getNextRenewAvailableDate_prev_day_from_100 y m d) by (lia || exact Hv).
    unfold prev_day.
    destruct (Z.ltb 1 d); [|destruct (Z.ltb 1 m)]; unfold zh_date, zh_date4;
      rewrite padStart0_4_id by lia; reflexivity.
  - intros s Hs. unfold getNextRenewAvailableDate. rewrite Hs. reflexivity.
Qed.

Lemma getNextRenewAvailableDate_prev_day_witness :
  ((1001 <= 2025 <= 9999)%Z /\ valid_date 2025 1 1) /\
  getNextRenewAvailableDate (zh_date4 2025 1 1) =
    (let '(y', m', d') := prev_day 2025 1 1 in zh_date4 y' m' d') /\
  match_date2 "2025年7月7日" = None /\
  getNextRenewAvailableDate "2025年7月7日" = UNKNOWN.
Proof.
  assert (H : (1001 <= 2025 <= 9999)%Z /\ valid_date 2025 1 1)
    by (split; [lia|]; split; [lia|]; unfold days_in_month; simpl; lia).
  split; [exact H|]. split; [apply (proj1 getNextRenewAvailableDate_prev_day); apply H|].
  assert (E : match_date2 "2025年7月7日" = None) by (vm_compute; reflexivity).
  split; [exact E|]. exact (proj2 getNextRenewAvailableDate_prev_day _ E).
Defined.

(** Years below 100 are read by [new Date(y, m, d)] as 1900 + y, and a
    year below 1000 is printed without padding. *)
Lemma getNextRenewAvailableDate_cex :
  getNextRenewAvailableDate "0050年03月01日" = "1950年02月28日" /\
  getNextRenewAvailableDate "1000年01月01日" = "999年12月31日".
Proof. split; vm_compute; reflexivity. Qed.

(* ------------------------------------------------------------------ *)
(** ** The script: frames, the expire.txt rule, the CAPTCHA loop *)

Open Scope nat_scope.
Open Scope string_scope.

(** ** The monad *)

Lemma bind_run {A B} (m : M A) (k : A -> M B) w :
  (m ≫= k) w = match m w with (w', Ok a) => k a w' | (w', Throw e) => (w', Throw e) end.
Proof. reflexivity. Qed.

Lemma count_ev_app p l1 l2 :
  count_ev p (l1 ++ l2) = (count_ev p l1 + count_ev p l2)%nat.
Proof. induction l1 as [|e l1 IH]; simpl; [reflexivity | rewrite IH; lia]. Qed.

Lemma count_line_app s l1 l2 :
  count_line s (l1 ++ l2) = (count_line s l1 + count_line s l2)%nat.
Proof. induction l1 as [|x l1 IH]; simpl; [reflexivity | rewrite IH; lia]. Qed.

(** ** Frames *)

Lemma frame_refl w : frame w w.
Proof. repeat split. Qed.

Lemma frame_trans w1 w2 w3 : frame w1 w2 -> frame w2 w3 -> frame w1 w3.
Proof. intros (A1 & B1 & C1) (A2 & B2 & C2). repeat split; congruence. Qed.

Lemma frame_record ev w : is_tg ev = false -> frame w (record ev w).
Proof.
  intros H. unfold frame, record; simpl. rewrite count_ev_app. simpl. rewrite H.
  repeat split; lia.
Qed.

Lemma frame_set_file p c w : p <> expireDateFile -> frame w (set_file p c w).
Proof. intros H. unfold frame, set_file; simpl. rewrite lookup_insert_ne by congruence. repeat split. Qed.

Lemma framed_ret {A} (a : A) : framed (mret a).
Proof. intros w. apply frame_refl. Qed.

Lemma framed_throw {A} e : framed (throw (A:=A) e).
Proof. intros w. apply frame_refl. Qed.

Lemma framed_get_world : framed get_world.
Proof. intros w. apply frame_refl. Qed.

Lemma framed_bind {A B} (m : M A) (k : A -> M B) :
  framed m -> (forall a, framed (k a)) -> framed (m ≫= k).
Proof.
  intros Hm Hk w. specialize (Hm w). rewrite bind_run.
  destruct (m w) as [w1 [a|e]]; simpl in *; [|exact Hm].
  eapply frame_trans; [exact Hm | apply Hk].
Qed.

Lemma framed_log line : line <> FINISHED_LINE -> framed (log line).
Proof.
  intros H w. unfold frame, log; simpl. rewrite count_line_app. simpl.
  apply String.eqb_neq in H. rewrite H. repeat split; lia.
Qed.

Lemma framed_set_lastExpireDate v : framed (set_lastExpireDate v).
Proof. intros w. repeat split. Qed.
Lemma framed_set_infoMessage v : framed (set_infoMessage v).
Proof. intros w. repeat split. Qed.
Lemma framed_set_scriptErrorMessage v : framed (set_scriptErrorMessage v).
Proof. intros w. repeat split. Qed.

Section Leaves.
Variable env : Env.

Lemma op_world ev w : fst (op env ev w) = record ev w.
Proof. unfold op. destruct (env_fail env (trace w) ev); reflexivity. Qed.

Lemma framed_op ev : is_tg ev = false -> framed (op env ev).
Proof. intros H w. rewrite op_world. apply frame_record, H. Qed.

Lemma framed_sleep ms : framed (sleep ms).
Proof. intros w. apply frame_record. reflexivity. Qed.

Lemma framed_now_string : framed (now_string env).
Proof. intros w. apply frame_refl. Qed.

Lemma framed_existsSync p : framed (existsSync p).
Proof. intros w. apply frame_refl. Qed.

Lemma framed_readFileSync p : framed (readFileSync env p).
Proof.
  intros w. unfold readFileSync.
  pose proof (op_world (EvReadFile p) w) as E.
  destruct (op env (EvReadFile p) w) as [w' [[]|e]]; simpl in *; subst;
    [destruct (fs w !! p)|]; apply frame_record; reflexivity.
Qed.

Lemma framed_writeFileSync p c : p <> expireDateFile -> framed (writeFileSync env p c).
Proof.
  intros Hp w. unfold writeFileSync.
  pose proof (op_world (EvWriteFile p) w) as E.
  destruct (op env (EvWriteFile p) w) as [w' [[]|e]]; simpl in *; subst.
  - apply (frame_trans _ (record (EvWriteFile p) w)); [apply frame_record; reflexivity | apply frame_set_file, Hp].
  - apply frame_record; reflexivity.
Qed.

Lemma framed_getExpirationDate k : framed (getExpirationDate env k).
Proof.
  intros w. unfold getExpirationDate.
  pose proof (op_world (EvEvaluateThTd k) w) as E.
  destruct (op env (EvEvaluateThTd k) w) as [w' [[]|e]]; simpl in *; subst;
    apply frame_record; reflexivity.
Qed.

Lemma framed_captcha_probe a : framed (captcha_probe env a).
Proof.
  intros w. unfold captcha_probe.
  pose proof (op_world (EvProbeCaptcha a) w) as E.
  destruct (op env (EvProbeCaptcha a) w) as [w' [[]|e]]; simpl in *; subst;
    apply frame_record; reflexivity.
Qed.

Lemma framed_page_content : framed (page_content env).
Proof.
  intros w. unfold page_content.
  pose proof (op_world EvPageContent w) as E.
  destruct (op env EvPageContent w) as [w' [[]|e]]; simpl in *; subst;
    apply frame_record; reflexivity.
Qed.

Lemma framed_recognize a img : framed (recognize env a img).
Proof. intros w. apply frame_record. reflexivity. Qed.

Lemma framed_screenshot p : p <> expireDateFile -> framed (screenshot env p).
Proof.
  intros Hp w. unfold screenshot.
  pose proof (op_world (EvScreenshot p) w) as E.
  destruct (op env (EvScreenshot p) w) as [w' [[]|e]]; simpl in *; subst.
  - apply (frame_trans _ (record (EvScreenshot p) w)); [apply frame_record; reflexivity | apply frame_set_file, Hp].
  - apply frame_record; reflexivity.
Qed.

Lemma framed_nav_race a sel : framed (nav_race env a sel).
Proof.
  intros w. unfold nav_race. simpl.
  apply (frame_trans _ (record (EvWaitNavRace a) w)); apply frame_record; reflexivity.
Qed.

Lemma framed_evaluate_body : framed (evaluate_body env).
Proof.
  intros w. unfold evaluate_body.
  pose proof (op_world EvEvaluateBody w) as E.
  destruct (op env EvEvaluateBody w) as [w' [[]|e]]; simpl in *; subst;
    apply frame_record; reflexivity.
Qed.

Lemma framed_all2 (a b : M unit) : framed a -> framed b -> framed (all2 a b).
Proof.
  intros Ha Hb w. unfold all2. specialize (Ha w).
  destruct (a w) as [w1 r1]. specialize (Hb w1). destruct (b w1) as [w2 r2].
  simpl in *. destruct r1, r2; eapply frame_trans; eassumption.
Qed.

Lemma framed_try_catch {A} (m : M A) h :
  framed m -> (forall e, framed (h e)) -> framed (try_catch m h).
Proof.
  intros Hm Hh w. unfold try_catch. specialize (Hm w).
  destruct (m w) as [w1 [a|e]]; simpl in *; [exact Hm|].
  eapply frame_trans; [exact Hm | apply Hh].
Qed.

Lemma framed_info_log v (k : M Outcome) :
  v <> FINISHED_LINE -> framed k ->
  framed (set_infoMessage v ;; (get_world ≫= λ w, log (infoMessage w) ;; k)).
Proof.
  intros Hv Hk w. rewrite bind_run. simpl. rewrite bind_run. simpl.
  rewrite bind_run. simpl.
  eapply frame_trans; [|apply Hk].
  unfold frame; simpl. rewrite count_line_app. simpl.
  apply String.eqb_neq in Hv. rewrite Hv. repeat split; lia.
Qed.

End Leaves.

Lemma captcha_failed_path_ne a : captcha_failed_path a <> expireDateFile.
Proof. discriminate. Qed.

Lemma not_yet_message_ne a b t : not_yet_message a b t <> FINISHED_LINE.
Proof. discriminate. Qed.
Lemma success_message_ne a b t : success_message a b t <> FINISHED_LINE.
Proof. discriminate. Qed.
Lemma fail_message_ne a t : fail_message a t <> FINISHED_LINE.
Proof. discriminate. Qed.

Section Frames.
Variable env : Env.

Lemma framed_recorder_stop : framed (recorder_stop env).
Proof.
  intros w. unfold recorder_stop.
  pose proof (op_world env EvRecorderStop w) as E.
  destruct (op env EvRecorderStop w) as [w' [[]|e]]; simpl in *; subst.
  - destruct (env_recording env).
    + apply (frame_trans _ (record EvRecorderStop w)); [apply frame_record; reflexivity|].
      apply frame_set_file. discriminate.
    + apply frame_record; reflexivity.
  - apply frame_record; reflexivity.
Qed.

Lemma framed_uploadToWebDAV l r : framed (uploadToWebDAV env l r).
Proof.
  unfold uploadToWebDAV. destruct (env_webdav env) as [[url path]|].
  - intros w. cbv zeta. destruct (fs w !! l).
    2: refine (framed_bind _ _ _ _ w); [apply framed_log; discriminate | intros ?; apply framed_ret].
    apply (frame_trans _ (record (EvWebdavPut
      (strip_trailing_slash url +:+ "/" +:+
       (if String.eqb (strip_trailing_slash path) "" then r
        else strip_trailing_slash path +:+ "/" +:+ r))) w)); [apply frame_record; reflexivity|].
    destruct (env_put env); apply framed_bind; try (intros ?; apply framed_ret);
      apply framed_log; discriminate.
  - apply framed_bind; [apply framed_log; discriminate | intros ?; apply framed_ret].
Qed.

End Frames.

Ltac framed_tac :=
  repeat first
    [ apply framed_info_log; [apply not_yet_message_ne |]
    | apply framed_ret | apply framed_throw | apply framed_get_world
    | apply framed_log;
        first [apply not_yet_message_ne | apply success_message_ne
              | apply fail_message_ne | discriminate]
    | apply framed_op; reflexivity
    | apply framed_sleep | apply framed_now_string | apply framed_existsSync
    | apply framed_readFileSync
    | apply framed_writeFileSync; discriminate
    | apply framed_getExpirationDate | apply framed_captcha_probe
    | apply framed_page_content | apply framed_recognize
    | apply framed_screenshot; first [apply captcha_failed_path_ne | discriminate]
    | apply framed_nav_race | apply framed_evaluate_body
    | apply framed_recorder_stop | apply framed_uploadToWebDAV
    | apply framed_all2
    | apply framed_try_catch; [| intros ?]
    | apply framed_set_lastExpireDate | apply framed_set_infoMessage
    | apply framed_set_scriptErrorMessage
    | apply framed_bind; [| intros ?]
    | case_match ].

Section Composite.
Variable env : Env.

Lemma framed_before_captcha : framed (before_captcha env).
Proof. unfold before_captcha. framed_tac. Qed.

Lemma framed_captcha_attempt a : framed (captcha_attempt env a).
Proof. unfold captcha_attempt. framed_tac. Qed.

Lemma framed_captcha_loop r a : framed (captcha_loop env r a).
Proof.
  revert a; induction r as [|r IH]; intros a; simpl; [apply framed_ret|].
  apply framed_bind; [apply framed_captcha_attempt | intros []; [apply framed_ret | apply IH]].
Qed.

Lemma framed_on_error e : framed (on_error env e).
Proof. unfold on_error. framed_tac. Qed.

Lemma framed_setup : framed (setup env).
Proof. unfold setup. framed_tac. Qed.

Lemma framed_init_vars : framed init_vars.
Proof. unfold init_vars. framed_tac. Qed.

End Composite.

(** ** Observable frames: the [FINISHED_LINE] count and the chat posts *)

Lemma obs_of_framed {A} (m : M A) : framed m -> obs_framed m.
Proof. intros H w. destruct (H w) as (_ & ? & ?). split; assumption. Qed.

Lemma obs_bind {A B} (m : M A) (k : A -> M B) :
  obs_framed m -> (forall a, obs_framed (k a)) -> obs_framed (m ≫= k).
Proof.
  intros Hm Hk w. specialize (Hm w). rewrite bind_run.
  destruct (m w) as [w1 [a|e]]; simpl in *; [|exact Hm].
  destruct Hm as [A1 B1]. destruct (Hk a w1) as [A2 B2]. split; congruence.
Qed.

Lemma obs_try_catch {A} (m : M A) h :
  obs_framed m -> (forall e, obs_framed (h e)) -> obs_framed (try_catch m h).
Proof.
  intros Hm Hh w. unfold try_catch. specialize (Hm w).
  destruct (m w) as [w1 [a|e]]; simpl in *; [exact Hm|].
  destruct Hm as [A1 B1]. destruct (Hh e w1) as [A2 B2]. split; congruence.
Qed.

Lemma obs_writeFileSync env p c : obs_framed (writeFileSync env p c).
Proof.
  intros w. unfold writeFileSync.
  pose proof (op_world env (EvWriteFile p) w) as E.
  destruct (op env (EvWriteFile p) w) as [w' [[]|e]]; simpl in *; subst;
    destruct (frame_record (EvWriteFile p) w eq_refl) as (_ & ? & ?); split; assumption.
Qed.

Ltac framed_leaf :=
  first
    [ apply framed_ret | apply framed_throw | apply framed_get_world
    | apply framed_log;
        first [apply not_yet_message_ne | apply success_message_ne
              | apply fail_message_ne | discriminate]
    | apply framed_op; reflexivity
    | apply framed_sleep | apply framed_now_string | apply framed_existsSync
    | apply framed_getExpirationDate | apply framed_evaluate_body
    | apply framed_set_infoMessage ].

Ltac obs_tac :=
  repeat first
    [ apply obs_writeFileSync
    | apply obs_of_framed; framed_leaf
    | apply obs_bind; [| intros ?]
    | case_match ].

Section Obs.
Variable env : Env.

Lemma obs_classify n nx : obs_framed (classify env n nx).
Proof. unfold classify. obs_tac. Qed.

Lemma obs_after_captcha cur : obs_framed (after_captcha env cur).
Proof.
  unfold after_captcha. apply obs_bind; [apply obs_of_framed, framed_evaluate_body|].
  intros body. case_match; [apply obs_of_framed; framed_tac|].
  obs_tac.
Qed.

Lemma obs_renewal : obs_framed (renewal env).
Proof.
  unfold renewal. apply obs_bind; [apply obs_of_framed, framed_before_captcha|]. intros cur.
  apply obs_bind; [apply obs_of_framed, framed_captcha_loop|]. intros [].
  - apply obs_after_captcha.
  - apply obs_of_framed, framed_throw.
Qed.

Lemma obs_workflow : obs_framed (try_catch (renewal env) (on_error env)).
Proof.
  apply obs_try_catch; [apply obs_renewal | intros e; apply obs_of_framed, framed_on_error].
Qed.

(** ** The [finally] block *)

Lemma pamo_of_framed {A} (m : M A) : framed m -> posts_at_most_once m.
Proof. intros H w. destruct (H w) as (? & ? & ?). repeat split; [assumption | assumption | lia]. Qed.

Lemma pamo_bind {A B} (m : M A) (k : A -> M B) :
  framed m -> (forall a, posts_at_most_once (k a)) -> posts_at_most_once (m ≫= k).
Proof.
  intros Hm Hk w. specialize (Hm w). rewrite bind_run.
  destruct (m w) as [w1 [a|e]] eqn:E; simpl in *.
  - destruct Hm as (A1 & B1 & C1). destruct (Hk a w1) as (A2 & B2 & C2).
    repeat split; [congruence | congruence | lia].
  - destruct Hm as (A1 & B1 & C1). repeat split; [congruence | congruence | lia].
Qed.

Lemma pamo_sendTelegramMessage msg : posts_at_most_once (sendTelegramMessage env msg).
Proof.
  unfold sendTelegramMessage. destruct (env_tg env).
  - intros w. destruct (env_fail env (trace w) (EvTelegramPost msg)).
    + unfold log, record; cbn [fst fs trace console].
      rewrite count_line_app, count_ev_app. cbn [count_line count_ev is_tg].
      replace (String.eqb "Error sending Telegram message:" FINISHED_LINE) with false
        by reflexivity.
      repeat split; lia.
    + unfold record; cbn [fst fs trace console].
      rewrite count_ev_app. cbn [count_ev is_tg]. repeat split; lia.
  - apply pamo_of_framed, framed_log. discriminate.
Qed.

Lemma log_finished_then (k : M unit) w :
  posts_at_most_once k -> cleanup_effect w (fst ((log FINISHED_LINE ;; k) w)).
Proof.
  intros Hk. rewrite bind_run. unfold log at 1.
  destruct (Hk (mkWorld (fs w) (trace w) (console w ++ [FINISHED_LINE]) (lastExpireDate w)
     (infoMessage w) (scriptErrorMessage w))) as (A1 & B1 & C1).
  cbn [fs trace console] in A1, B1, C1.
  unfold cleanup_effect. rewrite A1, B1, count_line_app. cbn [count_line].
  replace (String.eqb FINISHED_LINE FINISHED_LINE) with true by reflexivity.
  repeat split; lia.
Qed.

Lemma cleanup_effect_holds w : cleanup_effect w (fst (cleanup env w)).
Proof.
  unfold cleanup. apply log_finished_then.
  apply pamo_bind; [apply framed_sleep | intros _].
  apply pamo_bind; [apply framed_recorder_stop | intros _].
  apply pamo_bind; [apply framed_op; reflexivity | intros _].
  apply pamo_bind; [apply framed_existsSync | intros ex].
  apply pamo_bind; [| intros msg].
  { destruct ex; [apply framed_bind; [apply framed_now_string | intros t; apply framed_uploadToWebDAV] | apply framed_ret]. }
  apply pamo_bind; [apply framed_get_world | intros w'].
  case_match; [apply pamo_sendTelegramMessage | apply pamo_of_framed, framed_ret].
Qed.

End Obs.

Lemma rule_of_framed (m : M Outcome) :
  framed m -> (forall w, snd (m w) <> Ok Success) -> forall w, expire_file_rule w (m w).
Proof.
  intros Hm Hs w. specialize (Hm w). specialize (Hs w).
  destruct (m w) as [w1 r]. destruct Hm as (A & _ & _). simpl in *.
  split; [intros E; congruence | intros _; exact A].
Qed.

Lemma rule_bind {A} (m : M A) (k : A -> M Outcome) :
  framed m -> (forall a w, expire_file_rule w (k a w)) ->
  forall w, expire_file_rule w ((m ≫= k) w).
Proof.
  intros Hm Hk w. specialize (Hm w). rewrite bind_run.
  destruct (m w) as [w1 [a|e]]; simpl in *; destruct Hm as (A1 & _ & _).
  - specialize (Hk a w1). destruct (k a w1) as [w2 r]. destruct Hk as [H1 H2].
    split; [exact H1 | intros Hr; rewrite H2 by exact Hr; exact A1].
  - split; [discriminate | intros _; exact A1].
Qed.

Section Rule.
Variable env : Env.

Lemma classify_rule n nx w : expire_file_rule w (classify env n nx w).
Proof.
  unfold classify. rewrite bind_run. cbn [get_world].
  destruct (negb (String.eqb n "") && negb (String.eqb n (formatChineseDate (lastExpireDate w)))) eqn:C.
  - rewrite !bind_run. unfold now_string at 1. cbn beta iota.
    rewrite !bind_run. unfold log at 1. cbn beta iota.
    rewrite !bind_run. unfold set_infoMessage at 1. cbn beta iota.
    rewrite !bind_run. unfold writeFileSync at 1. unfold op.
    cbn [record fs trace lastExpireDate console infoMessage scriptErrorMessage].
    destruct (env_fail env _ _); cbn.
    + split; [discriminate | reflexivity].
    + apply andb_prop in C. destruct C as [C1 C2].
      apply negb_true_iff, String.eqb_neq in C1. apply negb_true_iff, String.eqb_neq in C2.
      split; [intros _; exists n; rewrite lookup_insert_eq; auto | congruence].
  - destruct (negb (String.eqb n "")).
    + rewrite !bind_run. unfold now_string at 1. cbn beta iota.
      rewrite !bind_run. unfold log at 1. cbn beta iota.
      rewrite !bind_run. unfold set_infoMessage at 1. cbn.
      split; [discriminate | reflexivity].
    + cbn. split; [discriminate | reflexivity].
Qed.

Lemma after_captcha_rule cur w : expire_file_rule w (after_captcha env cur w).
Proof.
  unfold after_captcha. revert w. apply rule_bind; [apply framed_evaluate_body|].
  intros body. case_match.
  - apply rule_of_framed; [framed_tac|].
    intros w. rewrite !bind_run. unfold now_string at 1. cbn beta iota.
    rewrite !bind_run. unfold set_infoMessage at 1. cbn beta iota.
    rewrite !bind_run. cbn. discriminate.
  - repeat first [apply classify_rule | apply rule_bind; [framed_leaf | intros ?]].
Qed.

Lemma renewal_rule w : expire_file_rule w (renewal env w).
Proof.
  unfold renewal. revert w. apply rule_bind; [apply framed_before_captcha|]. intros cur.
  apply rule_bind; [apply framed_captcha_loop|]. intros [].
  - apply after_captcha_rule.
  - apply rule_of_framed; [apply framed_throw | discriminate].
Qed.

Lemma workflow_rule w : expire_file_rule w (try_catch (renewal env) (on_error env) w).
Proof.
  unfold try_catch. pose proof (renewal_rule w) as H.
  destruct (renewal env w) as [w1 [a|e]]; [exact H|].
  destruct H as [_ H]. specialize (H ltac:(discriminate)).
  pose proof (framed_on_error env e w1) as (A & _ & _).
  assert (Hs : snd (on_error env e w1) = Ok Error).
  { unfold on_error. reflexivity. }
  destruct (on_error env e w1) as [w2 r]. simpl in *. subst r.
  split; [discriminate | intros _; congruence].
Qed.
End Rule.

(** ** Trace extensions *)

Lemma tr_ok_ret Q {A} (a : A) : tr_ok Q (mret a).
Proof. intros w. exists []. split; [symmetry; apply app_nil_r | constructor]. Qed.

Lemma tr_ok_log Q line : tr_ok Q (log line).
Proof. intros w. exists []. split; [symmetry; apply app_nil_r | constructor]. Qed.

Lemma tr_ok_bind Q {A B} (m : M A) (k : A -> M B) :
  tr_ok Q m -> (forall a, tr_ok Q (k a)) -> tr_ok Q (m ≫= k).
Proof.
  intros Hm Hk w. destruct (Hm w) as (e1 & E1 & F1). rewrite bind_run.
  destruct (m w) as [w1 [a|e]]; simpl in *; [|exists e1; auto].
  destruct (Hk a w1) as (e2 & E2 & F2). exists (e1 ++ e2)%list.
  rewrite E2, E1, app_assoc. split; [reflexivity | apply Forall_app; auto].
Qed.

Lemma tr_ok_record Q ev w : Q ev ->
  exists ext, trace (record ev w) = (trace w ++ ext)%list /\ Forall Q ext.
Proof. intros H. exists [ev]. split; [reflexivity | repeat constructor; exact H]. Qed.

Section TrLeaves.
Variable env : Env.
Variable Q : Event -> Prop.

Lemma tr_ok_op ev : Q ev -> tr_ok Q (op env ev).
Proof. intros H w. rewrite op_world. apply tr_ok_record, H. Qed.

Lemma tr_ok_writeFileSync p c : Q (EvWriteFile p) -> tr_ok Q (writeFileSync env p c).
Proof.
  intros H w. unfold writeFileSync. pose proof (op_world env (EvWriteFile p) w) as E.
  destruct (op env (EvWriteFile p) w) as [w' [[]|e]]; simpl in *; subst;
    apply tr_ok_record, H.
Qed.

Lemma tr_ok_screenshot p : Q (EvScreenshot p) -> tr_ok Q (screenshot env p).
Proof.
  intros H w. unfold screenshot. pose proof (op_world env (EvScreenshot p) w) as E.
  destruct (op env (EvScreenshot p) w) as [w' [[]|e]]; simpl in *; subst;
    apply tr_ok_record, H.
Qed.

Lemma tr_ok_page_content : Q EvPageContent -> tr_ok Q (page_content env).
Proof.
  intros H w. unfold page_content. pose proof (op_world env EvPageContent w) as E.
  destruct (op env EvPageContent w) as [w' [[]|e]]; simpl in *; subst;
    apply tr_ok_record, H.
Qed.

Lemma tr_ok_nav_race a sel :
  Q (EvWaitNavRace a) -> Q (EvClick sel) -> tr_ok Q (nav_race env a sel).
Proof.
  intros H1 H2 w. exists [EvWaitNavRace a; EvClick sel].
  split; [unfold nav_race, record; simpl; rewrite <- app_assoc; reflexivity
         | repeat constructor; assumption].
Qed.

End TrLeaves.

Lemma fill_ok_other e : (forall c, e <> EvFill CAPTCHA_INPUT c) -> fill_ok e.
Proof. intros H c E. exfalso. exact (H c E). Qed.

Ltac tail_ev :=
  split; [reflexivity | split; [reflexivity | apply fill_ok_other; intros ? ?; discriminate]].

Ltac tr_tac :=
  repeat first
    [ apply tr_ok_ret | apply tr_ok_log
    | apply tr_ok_op; tail_ev
    | apply tr_ok_writeFileSync; tail_ev
    | apply tr_ok_screenshot; tail_ev
    | apply tr_ok_page_content; tail_ev
    | apply tr_ok_nav_race; tail_ev
    | apply tr_ok_bind; [| intros ?]
    | case_match ].

Section Attempt.
Variable env : Env.

(** The part of an attempt after the recognizer answered. *)
Lemma attempt_after_recognize a (code : option string) :
  tr_ok attempt_tail_ev
    (match code with
     | None =>
         log "验证码识别接口失败" ;;
         screenshot env (captcha_failed_path a) ;;
         mret false
     | Some code =>
         if String.eqb code "" || (js_length code <? 4)%nat then
           log "验证码识别失败" ;;
           screenshot env (captcha_failed_path a) ;;
           mret false
         else
           op env (EvFill CAPTCHA_INPUT code) ;;
           op env EvInjectAutoSubmit ;;
           nav_race env a CONTINUE_BUTTON ≫= λ nav : bool,
           if nav then
             log "验证码尝试成功" ;;
             mret true
           else
             log "验证码尝试失败，刷新重试..." ;;
             op env EvReload ;;
             mret false
     end).
Proof.
  destruct code as [code|]; [|tr_tac].
  destruct (String.eqb code "" || (js_length code <? 4)%nat) eqn:C; [tr_tac|].
  apply tr_ok_bind; [|intros _; tr_tac].
  apply tr_ok_op. split; [reflexivity | split; [reflexivity|]].
  intros c E. injection E as <-.
  apply orb_false_iff in C. destruct C as [C1 C2].
  apply String.eqb_neq in C1. apply Nat.ltb_ge in C2. auto.
Qed.
End Attempt.

Lemma count_ev_Forall_zero (p : Event -> bool) l :
  Forall (fun e => p e = false) l -> count_ev p l = 0%nat.
Proof. induction 1 as [|e l He _ IH]; simpl; [reflexivity | rewrite He, IH; reflexivity]. Qed.

Lemma Forall_tail_probe l :
  Forall attempt_tail_ev l -> Forall (fun e => is_probe e = false /\ fill_ok e) l.
Proof. intros H. eapply Forall_impl; [exact H|]. intros e (A & _ & C). auto. Qed.

Lemma Forall_tail_recognize l :
  Forall attempt_tail_ev l -> Forall (fun e => is_recognize e = false) l.
Proof. intros H. eapply Forall_impl; [exact H|]. intros e (_ & B & _). auto. Qed.

Section Attempt2.
Variable env : Env.

(** An attempt probes once, for its own number, then recognizes at most one
    image. *)
Lemma attempt_shape a w :
  exists ext,
    trace (fst (captcha_attempt env a w)) = (trace w ++ EvProbeCaptcha a :: ext)%list /\
    Forall (fun e => is_probe e = false /\ fill_ok e) ext /\
    (count_ev is_recognize ext <= 1)%nat.
Proof.
  unfold captcha_attempt. rewrite bind_run. unfold captcha_probe at 1.
  pose proof (op_world env (EvProbeCaptcha a) w) as E.
  destruct (op env (EvProbeCaptcha a) w) as [w1 [[]|e]]; simpl in E; subst w1; cbn beta iota.
  - destruct (env_captcha_img env a) as [src|].
    + rewrite bind_run. pose proof (op_world env (EvReadImgSrc a) (record (EvProbeCaptcha a) w)) as E2.
      destruct (op env (EvReadImgSrc a) (record (EvProbeCaptcha a) w)) as [w2 [[]|e]];
        simpl in E2; subst w2; cbn beta iota.
      * rewrite bind_run. unfold recognize at 1. cbn beta iota.
        destruct (attempt_after_recognize env a (env_recognize env a)
          (record (EvRecognize a src) (record (EvReadImgSrc a) (record (EvProbeCaptcha a) w))))
          as (e3 & E3 & F3).
        exists (EvReadImgSrc a :: EvRecognize a src :: e3).
        split; [|split].
        -- etransitivity; [exact E3|]. unfold record; simpl. rewrite <- !app_assoc. reflexivity.
        -- constructor; [split; [reflexivity | apply fill_ok_other; intros ? ?; discriminate]|].
           constructor; [split; [reflexivity | apply fill_ok_other; intros ? ?; discriminate]|].
           apply Forall_tail_probe, F3.
        -- simpl. rewrite count_ev_Forall_zero by (apply Forall_tail_recognize, F3). lia.
      * exists [EvReadImgSrc a]. split; [|split].
        -- unfold record; simpl. rewrite <- !app_assoc. reflexivity.
        -- constructor; [split; [reflexivity | apply fill_ok_other; intros ? ?; discriminate] | constructor].
        -- simpl. lia.
    + assert (H : tr_ok attempt_tail_ev
        (log "无验证码，跳过验证码填写" ;;
         html ← page_content env;
         writeFileSync env "no_captcha.html" html ;;
         mret true)) by tr_tac.
      destruct (H (record (EvProbeCaptcha a) w)) as (e3 & E3 & F3).
      exists e3. split; [|split].
      * etransitivity; [exact E3|]. unfold record; simpl. rewrite <- !app_assoc. reflexivity.
      * apply Forall_tail_probe, F3.
      * rewrite count_ev_Forall_zero by (apply Forall_tail_recognize, F3). lia.
  - exists []. split; [|split].
    + unfold record; simpl. reflexivity.
    + constructor.
    + simpl. lia.
Qed.

(** The loop of [r] attempts numbered from [a]. *)
Lemma loop_shape r a w :
  exists ext,
    trace (fst (captcha_loop env r a w)) = (trace w ++ ext)%list /\
    (count_ev is_probe ext <= r)%nat /\ (count_ev is_recognize ext <= r)%nat /\
    Forall (probe_within a (a + r - 1)) ext /\ Forall fill_ok ext.
Proof.
  revert a w; induction r as [|r IH]; intros a w; simpl.
  - exists []. split; [symmetry; apply app_nil_r|]. simpl. repeat split; [lia | lia | constructor | constructor].
  - rewrite bind_run. destruct (attempt_shape a w) as (e1 & E1 & F1 & C1).
    destruct (captcha_attempt env a w) as [w1 [[]|err]]; simpl in E1.
    + exists (EvProbeCaptcha a :: e1). split; [exact E1|].
      simpl. rewrite count_ev_Forall_zero by (eapply Forall_impl; [exact F1 | intros ? []; assumption]).
      repeat split; [lia | lia | |].
      * constructor; [intros n En; injection En as <-; lia|].
        eapply Forall_impl; [exact F1|]. intros e [Hp _] n En. subst e. discriminate.
      * constructor; [apply fill_ok_other; intros ? ?; discriminate|].
        eapply Forall_impl; [exact F1|]. intros e [_ Hf]. exact Hf.
    + destruct (IH (S a) w1) as (e2 & E2 & P2 & R2 & W2 & F2).
      exists (EvProbeCaptcha a :: e1 ++ e2)%list. split.
      * rewrite E2, E1, <- app_assoc. reflexivity.
      * simpl. rewrite !count_ev_app.
        rewrite (count_ev_Forall_zero is_probe e1) by (eapply Forall_impl; [exact F1 | intros ? []; assumption]).
        repeat split; [lia | lia | |].
        -- constructor; [intros n En; injection En as <-; lia|].
           apply Forall_app. split.
           ++ eapply Forall_impl; [exact F1|]. intros e [Hp _] n En. subst e. discriminate.
           ++ eapply Forall_impl; [exact W2|]. intros e He n En. specialize (He n En). lia.
        -- constructor; [apply fill_ok_other; intros ? ?; discriminate|].
           apply Forall_app. split; [|exact F2].
           eapply Forall_impl; [exact F1|]. intros e [_ Hf]. exact Hf.
    + exists (EvProbeCaptcha a :: e1). split; [exact E1|].
      simpl. rewrite count_ev_Forall_zero by (eapply Forall_impl; [exact F1 | intros ? []; assumption]).
      repeat split; [lia | lia | |].
      * constructor; [intros n En; injection En as <-; lia|].
        eapply Forall_impl; [exact F1|]. intros e [Hp _] n En. subst e. discriminate.
      * constructor; [apply fill_ok_other; intros ? ?; discriminate|].
        eapply Forall_impl; [exact F1|]. intros e [_ Hf]. exact Hf.
Qed.
End Attempt2.

Lemma short_code_as_rejection env a code w :
  env_captcha_img env a <> None -> env_recognize env a = Some code -> (code = "" \/ (js_length code < 4)%nat) ->
  let '(w1, r1) := captcha_attempt env a w in
  let '(w2, r2) := captcha_attempt (env_recognize_rejects env a) a w in
  r1 = r2 /\ r1 <> Ok true /\ trace w1 = trace w2 /\ fs w1 = fs w2.
Proof.
  intros Himg Hc Hbad.
  assert (Hb : (String.eqb code "" || (js_length code <? 4)%nat) = true).
  { destruct Hbad as [->|Hl]; [reflexivity|]. apply orb_true_iff. right. apply Nat.ltb_lt, Hl. }
  unfold captcha_attempt. rewrite !bind_run. unfold captcha_probe, op.
  cbn [env_recognize_rejects env_fail env_captcha_img].
  destruct (env_fail env (trace w) (EvProbeCaptcha a)); cbn beta iota.
  { repeat split; discriminate. }
  destruct (env_captcha_img env a) as [src|]; cbn beta iota; [|congruence].
  rewrite !bind_run. cbn [record trace].
  destruct (env_fail env _ (EvReadImgSrc a)); cbn beta iota.
  { repeat split; discriminate. }
  rewrite !bind_run. unfold recognize. cbn [env_recognize_rejects env_recognize].
  rewrite Hc, Nat.eqb_refl. cbn beta iota. rewrite Hb.
  rewrite !bind_run. unfold log. cbn beta iota.
  rewrite !bind_run. unfold screenshot, op.
  cbn [env_recognize_rejects env_fail env_screenshot record trace fs console].
  destruct (env_fail env _ (EvScreenshot (captcha_failed_path a))); cbn;
    repeat split; discriminate.
Qed.

Lemma no_captcha_image_solves env r a w :
  env_captcha_img env a = None ->
  (forall t ev, In ev [EvProbeCaptcha a; EvPageContent; EvWriteFile "no_captcha.html"] ->
     env_fail env t ev = None) ->
  exists w', captcha_loop env (S r) a w = (w', Ok true) /\
    trace w' = (trace w ++ [EvProbeCaptcha a; EvPageContent; EvWriteFile "no_captcha.html"])%list.
Proof.
  intros Himg Hf. cbn [captcha_loop]. rewrite bind_run.
  unfold captcha_attempt. rewrite bind_run. unfold captcha_probe, op.
  rewrite (Hf _ (EvProbeCaptcha a)) by (simpl; auto). cbn beta iota. rewrite Himg.
  rewrite !bind_run. unfold log at 1. cbn beta iota.
  rewrite !bind_run. unfold page_content, op.
  rewrite (Hf _ EvPageContent) by (simpl; auto). cbn beta iota.
  rewrite !bind_run. unfold writeFileSync, op.
  rewrite (Hf _ (EvWriteFile "no_captcha.html")) by (simpl; auto). cbn.
  eexists; split; [reflexivity|]. cbn. rewrite <- !app_assoc. reflexivity.
Qed.

Lemma too_early_after_captcha env w w1 cur w2 :
  before_captcha env w = (w1, Ok cur) ->
  captcha_loop env maxCaptchaTries 1 w1 = (w2, Ok true) ->
  includes (env_body env) TOO_EARLY_MARKER = true ->
  env_fail env (trace w2) EvEvaluateBody = None ->
  exists w3, renewal env w = (w3, Ok NotYetEligible) /\
    trace w3 = (trace w2 ++ [EvEvaluateBody])%list /\ fs w3 = fs w2 /\
    infoMessage w3 =
      not_yet_message
        (match match_retry_date (env_body env) with
         | Some d => formatChineseDate d | None => "" end)
        cur (getBeijingTimeString (env_now env (trace w3)) (env_tz env)).
Proof.
  intros H1 H2 H3 H4. unfold renewal. rewrite bind_run, H1. cbn beta iota.
  rewrite bind_run, H2. cbn [negb].
  unfold after_captcha. rewrite bind_run. unfold evaluate_body, op. rewrite H4. cbn beta iota.
  rewrite H3. rewrite !bind_run. unfold now_string at 1. cbn beta iota.
  rewrite !bind_run. unfold set_infoMessage at 1. cbn beta iota.
  rewrite !bind_run. cbn [get_world].
  rewrite !bind_run. unfold log at 1. cbn beta iota.
  eexists; split; [reflexivity|]. cbn [trace fs infoMessage].
  split; [reflexivity | split; reflexivity].
Qed.

Lemma fresh_date_written_as_read env nx w :
  lastExpireDate w = "2025-07-07" ->
  env_fail env (trace w) (EvWriteFile expireDateFile) = None ->
  formatChineseDate "2025年08月07日" = "2025年08月07日" /\
  exists w', classify env (formatChineseDate "2025年08月07日") nx w = (w', Ok Success) /\
    fs w' !! expireDateFile = Some "2025年08月07日".
Proof.
  intros Hl Hf.
  assert (E : formatChineseDate "2025年08月07日" = "2025年08月07日") by (vm_compute; reflexivity).
  split; [exact E|]. rewrite E.
  unfold classify. rewrite bind_run. cbn [get_world]. rewrite Hl.
  assert (C : (negb (String.eqb "2025年08月07日" "") &&
               negb (String.eqb "2025年08月07日" (formatChineseDate "2025-07-07"))) = true)
    by (vm_compute; reflexivity).
  rewrite C.
  rewrite !bind_run. unfold now_string at 1. cbn beta iota.
  rewrite !bind_run. unfold log at 1. cbn beta iota.
  rewrite !bind_run. unfold set_infoMessage at 1. cbn beta iota.
  rewrite !bind_run. unfold writeFileSync at 1. unfold op.
  cbn [record fs trace lastExpireDate console infoMessage scriptErrorMessage].
  rewrite Hf. cbn beta iota. eexists; split; [reflexivity|]. cbn [fs set_file].
  apply lookup_insert_eq.
Qed.

(** ** The claims *)

(** Claim C1: the classifier's fatal branch is unreachable.  The
    normalized fresh date is never empty ([formatChineseDate] maps an empty
    read to 未知), so although [classify] throws on an empty date, a
    contract page without an expiry row after renewal ends in [Success] and
    未知 is written to [expire.txt]. *)
Theorem missing_expiry_row_classified_success :
  (forall s, formatChineseDate s <> "") /\
  (forall env nx w, classify env "" nx w = (w, Throw NOT_FOUND_ERROR)) /\
  snd (script env_no_expiry_row world_0707) = Ok Success /\
  fs (fst (script env_no_expiry_row world_0707)) !! expireDateFile = Some UNKNOWN.
Proof.
  split; [exact formatChineseDate_nonempty|].
  split; [intros env nx w; reflexivity|].
  split; vm_compute; reflexivity.
Qed.

Lemma tr_ok_all2 Q (a b : M unit) : tr_ok Q a -> tr_ok Q b -> tr_ok Q (all2 a b).
Proof.
  intros Ha Hb w. unfold all2. destruct (Ha w) as (e1 & E1 & F1).
  destruct (a w) as [w1 r1]. destruct (Hb w1) as (e2 & E2 & F2).
  destruct (b w1) as [w2 r2]. simpl in *.
  assert (T : exists ext, trace w2 = (trace w ++ ext)%list /\ Forall Q ext).
  { exists (e1 ++ e2)%list. rewrite E2, E1, app_assoc. split; [reflexivity | apply Forall_app; auto]. }
  destruct r1, r2; exact T.
Qed.

Section TrLeaves2.
Variable env : Env.
Variable Q : Event -> Prop.

Lemma tr_ok_nil_step {A} (m : M A) : (forall w, trace (fst (m w)) = trace w) -> tr_ok Q m.
Proof. intros H w. exists []. rewrite H, app_nil_r. split; [reflexivity | constructor]. Qed.

Lemma tr_ok_one_step {A} (m : M A) ev : Q ev ->
  (forall w, trace (fst (m w)) = (trace w ++ [ev])%list) -> tr_ok Q m.
Proof. intros Hq H w. exists [ev]. rewrite H. split; [reflexivity | repeat constructor; exact Hq]. Qed.

Lemma tr_ok_existsSync p : tr_ok Q (existsSync p).
Proof. apply tr_ok_nil_step. reflexivity. Qed.

Lemma tr_ok_set_lastExpireDate v : tr_ok Q (set_lastExpireDate v).
Proof. apply tr_ok_nil_step. reflexivity. Qed.

Lemma tr_ok_sleep ms : Q (EvSleep ms) -> tr_ok Q (sleep ms).
Proof. intros H. apply (tr_ok_one_step _ _ H). reflexivity. Qed.

Lemma tr_ok_readFileSync p : Q (EvReadFile p) -> tr_ok Q (readFileSync env p).
Proof.
  intros H. apply (tr_ok_one_step _ _ H). intros w. unfold readFileSync, op.
  destruct (env_fail env (trace w) (EvReadFile p)); [reflexivity|].
  destruct (fs w !! p); reflexivity.
Qed.

Lemma tr_ok_getExpirationDate k : Q (EvEvaluateThTd k) -> tr_ok Q (getExpirationDate env k).
Proof.
  intros H. apply (tr_ok_one_step _ _ H). intros w. unfold getExpirationDate, op.
  destruct (env_fail env (trace w) (EvEvaluateThTd k)); reflexivity.
Qed.

Lemma tr_ok_captcha_probe a : Q (EvProbeCaptcha a) -> tr_ok Q (captcha_probe env a).
Proof.
  intros H. apply (tr_ok_one_step _ _ H). intros w. unfold captcha_probe, op.
  destruct (env_fail env (trace w) (EvProbeCaptcha a)); reflexivity.
Qed.

Lemma tr_ok_recognize a i : Q (EvRecognize a i) -> tr_ok Q (recognize env a i).
Proof. intros H. apply (tr_ok_one_step _ _ H). reflexivity. Qed.

End TrLeaves2.

Ltac body_tac :=
  repeat first
    [ apply tr_ok_ret | apply tr_ok_log
    | apply tr_ok_existsSync | apply tr_ok_set_lastExpireDate
    | apply tr_ok_sleep; discriminate
    | apply tr_ok_readFileSync; discriminate
    | apply tr_ok_getExpirationDate; discriminate
    | apply tr_ok_captcha_probe; discriminate
    | apply tr_ok_recognize; discriminate
    | apply tr_ok_op; discriminate
    | apply tr_ok_writeFileSync; discriminate
    | apply tr_ok_screenshot; discriminate
    | apply tr_ok_page_content; discriminate
    | apply tr_ok_nav_race; discriminate
    | apply tr_ok_all2
    | apply tr_ok_bind; [| intros ?]
    | progress cbv zeta
    | case_match ].

Lemma before_captcha_no_body env : tr_ok (fun e => e <> EvEvaluateBody) (before_captcha env).
Proof. unfold before_captcha. body_tac. Qed.

Lemma captcha_attempt_no_body env a : tr_ok (fun e => e <> EvEvaluateBody) (captcha_attempt env a).
Proof. unfold captcha_attempt. body_tac. Qed.

Lemma captcha_loop_no_body env r a : tr_ok (fun e => e <> EvEvaluateBody) (captcha_loop env r a).
Proof.
  revert a. induction r as [|r IH]; intros a; cbn [captcha_loop].
  - apply tr_ok_ret.
  - apply tr_ok_bind; [apply captcha_attempt_no_body | intros []; [apply tr_ok_ret | apply IH]].
Qed.

Lemma captcha_attempt_submits env a w src code :
  env_captcha_img env a = Some src -> env_recognize env a = Some code ->
  (4 <= js_length code)%nat ->
  (forall t ev, In ev [EvProbeCaptcha a; EvReadImgSrc a; EvFill CAPTCHA_INPUT code;
                       EvInjectAutoSubmit] -> env_fail env t ev = None) ->
  exists ext, trace (fst (captcha_attempt env a w)) =
    (trace w ++ [EvProbeCaptcha a; EvReadImgSrc a; EvRecognize a src;
                 EvFill CAPTCHA_INPUT code; EvInjectAutoSubmit; EvWaitNavRace a;
                 EvClick CONTINUE_BUTTON] ++ ext)%list.
Proof.
  intros Himg Hrec Hlen Hf.
  assert (C : (String.eqb code "" || (js_length code <? 4)%nat) = false).
  { destruct (String.eqb_spec code "") as [->|_]; [simpl in Hlen; lia|].
    apply Nat.ltb_ge in Hlen. rewrite Hlen. reflexivity. }
  unfold captcha_attempt. rewrite bind_run. unfold captcha_probe, op at 1.
  rewrite (Hf _ (EvProbeCaptcha a)) by (simpl; auto). cbn beta iota. rewrite Himg.
  rewrite !bind_run. unfold op at 1. rewrite (Hf _ (EvReadImgSrc a)) by (simpl; auto).
  cbn beta iota.
  rewrite !bind_run. unfold recognize at 1. cbn beta iota. rewrite Hrec. rewrite C.
  rewrite !bind_run. unfold op at 1. rewrite (Hf _ (EvFill CAPTCHA_INPUT code)) by (simpl; auto).
  cbn beta iota.
  rewrite !bind_run. unfold op at 1. rewrite (Hf _ EvInjectAutoSubmit) by (simpl; auto).
  cbn beta iota.
  rewrite !bind_run. unfold nav_race at 1. cbn beta iota.
  destruct (env_nav env a).
  - rewrite !bind_run. unfold log at 1. cbn beta iota.
    exists []. cbn [fst trace record]. rewrite <- !app_assoc. reflexivity.
  - rewrite !bind_run. unfold log at 1. cbn beta iota.
    rewrite !bind_run. unfold op at 1.
    destruct (env_fail _ _ EvReload); cbn beta iota;
      exists [EvReload]; simpl; rewrite <- !app_assoc; reflexivity.
Qed.

Lemma captcha_give_up env w w1 cur w2 :
  before_captcha env w = (w1, Ok cur) ->
  captcha_loop env maxCaptchaTries 1 w1 = (w2, Ok false) ->
  renewal env w = (w2, Throw CAPTCHA_ERROR).
Proof.
  intros H1 H2. unfold renewal. rewrite bind_run, H1. cbn beta iota.
  rewrite bind_run, H2. reflexivity.
Qed.

(** Claim C2 (as the code has it): the too-early check comes after the
    CAPTCHA resolver.  (1) Neither the login and navigation before the
    resolver nor the resolver loop itself reads the page text
    ([EvEvaluateBody]).  (2) An attempt that finds a challenge image and gets
    a code of at least 4 characters from the recognizer, with the page
    operations succeeding, fills the code into the input, injects the
    auto-submit and clicks the continue button.  (3) If the resolver gives
    up, [renewal] fails with the CAPTCHA error right there, without reading
    the page text.  (4) When the persisted-date read and login succeeded with
    [cur], the loop reported solved and the page text contains the too-early
    marker, [renewal] ends in [NotYetEligible] right after reading the page
    text (no further click), leaves the files as the loop left them, and its
    message carries the extracted eligible date and [cur]. *)
Theorem too_early_reported_after_captcha env :
  tr_ok (fun e => e <> EvEvaluateBody) (before_captcha env) /\
  tr_ok (fun e => e <> EvEvaluateBody) (captcha_loop env maxCaptchaTries 1) /\
  (forall a w src code,
     env_captcha_img env a = Some src -> env_recognize env a = Some code ->
     (4 <= js_length code)%nat ->
     (forall t ev, In ev [EvProbeCaptcha a; EvReadImgSrc a; EvFill CAPTCHA_INPUT code;
                          EvInjectAutoSubmit] -> env_fail env t ev = None) ->
     exists ext, trace (fst (captcha_attempt env a w)) =
       (trace w ++ [EvProbeCaptcha a; EvReadImgSrc a; EvRecognize a src;
                    EvFill CAPTCHA_INPUT code; EvInjectAutoSubmit; EvWaitNavRace a;
                    EvClick CONTINUE_BUTTON] ++ ext)%list) /\
  (forall w w1 cur w2,
     before_captcha env w = (w1, Ok cur) ->
     captcha_loop env maxCaptchaTries 1 w1 = (w2, Ok false) ->
     renewal env w = (w2, Throw CAPTCHA_ERROR)) /\
  (forall w w1 cur w2,
     before_captcha env w = (w1, Ok cur) ->
     captcha_loop env maxCaptchaTries 1 w1 = (w2, Ok true) ->
     includes (env_body env) TOO_EARLY_MARKER = true ->
     env_fail env (trace w2) EvEvaluateBody = None ->
     exists w3, renewal env w = (w3, Ok NotYetEligible) /\
       trace w3 = (trace w2 ++ [EvEvaluateBody])%list /\ fs w3 = fs w2 /\
       infoMessage w3 =
         not_yet_message
           (match match_retry_date (env_body env) with
            | Some d => formatChineseDate d | None => "" end)
           cur (getBeijingTimeString (env_now env (trace w3)) (env_tz env))).
Proof.
  split; [apply before_captcha_no_body|].
  split; [apply captcha_loop_no_body|].
  split; [intros a w src code; apply captcha_attempt_submits|].
  split; [apply captcha_give_up | apply too_early_after_captcha].
Qed.

Lemma too_early_reported_after_captcha_witness :
  exists w3, renewal env_captcha_then_too_early world_0707 = (w3, Ok NotYetEligible).
Proof.
  destruct (proj2 (proj2 (proj2 (proj2
    (too_early_reported_after_captcha env_captcha_then_too_early))))
    world_0707
    (fst (before_captcha env_captcha_then_too_early world_0707)) "2025年08月07日"
    (fst (captcha_loop env_captcha_then_too_early maxCaptchaTries 1
            (fst (before_captcha env_captcha_then_too_early world_0707)))))
    as (w3 & E & _).
  - vm_compute. reflexivity.
  - vm_compute. reflexivity.
  - vm_compute. reflexivity.
  - vm_compute. reflexivity.
  - exists w3. exact E.
Defined.

(** A run of the script that ends in [NotYetEligible] after the CAPTCHA
    code was filled in and the final continue button clicked. *)
Lemma too_early_after_captcha_cex :
  snd (script env_captcha_then_too_early world_0707) = Ok NotYetEligible /\
  In (EvFill CAPTCHA_INPUT "1234") (trace (fst (script env_captcha_then_too_early world_0707))) /\
  In (EvClick CONTINUE_BUTTON) (trace (fst (script env_captcha_then_too_early world_0707))).
Proof.
  split; [vm_compute; reflexivity|].
  split; vm_compute; repeat (first [left; reflexivity | right]).
Qed.

(** Claim C3 (as the code has it): "2025年08月07日" is already in normal
    form, so with "2025-07-07" persisted the classifier reports [Success] and
    writes "2025年08月07日", not "2025-08-07", to [expire.txt]. *)
Theorem fresh_0807_written_in_site_format env nx w :
  lastExpireDate w = "2025-07-07" ->
  env_fail env (trace w) (EvWriteFile expireDateFile) = None ->
  formatChineseDate "2025年08月07日" = "2025年08月07日" /\
  exists w', classify env (formatChineseDate "2025年08月07日") nx w = (w', Ok Success) /\
    fs w' !! expireDateFile = Some "2025年08月07日".
Proof. apply fresh_date_written_as_read. Qed.

Lemma fresh_0807_written_in_site_format_witness :
  exists w', classify env_fresh_0807 (formatChineseDate "2025年08月07日") "2025年08月06日"
               world_read_dash = (w', Ok Success) /\
    fs w' !! expireDateFile = Some "2025年08月07日".
Proof.
  apply (fresh_0807_written_in_site_format env_fresh_0807 "2025年08月06日" world_read_dash);
    reflexivity.
Defined.

(** The whole script with "2025-07-07" persisted and "2025年08月07日" on
    the page: [Success], and [expire.txt] holds "2025年08月07日". *)
Lemma fresh_0807_cex :
  snd (script env_fresh_0807 (start_world "2025-07-07")) = Ok Success /\
  fs (fst (script env_fresh_0807 (start_world "2025-07-07"))) !! expireDateFile
    = Some "2025年08月07日" /\
  "2025年08月07日" <> "2025-08-07".
Proof. split; [|split]; [vm_compute; reflexivity | vm_compute; reflexivity | discriminate]. Qed.

(** Claim C4: the CAPTCHA loop probes at most 3 times, for attempts 1 to 3,
    and calls the recognizer at most 3 times; when it gives up unsolved,
    [renewal] throws [CAPTCHA_ERROR]. *)
Theorem captcha_at_most_three_attempts env :
  (forall w, exists ext,
     trace (fst (captcha_loop env maxCaptchaTries 1 w)) = (trace w ++ ext)%list /\
     (count_ev is_probe ext <= 3)%nat /\ (count_ev is_recognize ext <= 3)%nat /\
     Forall (probe_within 1 3) ext) /\
  (forall w w1 cur w2,
     before_captcha env w = (w1, Ok cur) ->
     captcha_loop env maxCaptchaTries 1 w1 = (w2, Ok false) ->
     renewal env w = (w2, Throw CAPTCHA_ERROR)).
Proof.
  split.
  - intros w. destruct (loop_shape env maxCaptchaTries 1 w) as (ext & E & P & R & W & _).
    exists ext. auto.
  - intros w w1 cur w2 H1 H2. unfold renewal. rewrite bind_run, H1. cbn beta iota.
    rewrite bind_run, H2. reflexivity.
Qed.

(** Claim C5: every code filled into the CAPTCHA input has at least 4
    characters; a recognized code that is empty or shorter than 4 behaves as
    a rejected recognizer call: same result, same trace, same files, and the
    attempt does not end the loop as solved. *)
Theorem short_code_never_filled env :
  (forall w, exists ext,
     trace (fst (captcha_loop env maxCaptchaTries 1 w)) = (trace w ++ ext)%list /\
     Forall fill_ok ext) /\
  (forall a code w,
     env_captcha_img env a <> None -> env_recognize env a = Some code ->
     (code = "" \/ (js_length code < 4)%nat) ->
     let '(w1, r1) := captcha_attempt env a w in
     let '(w2, r2) := captcha_attempt (env_recognize_rejects env a) a w in
     r1 = r2 /\ r1 <> Ok true /\ trace w1 = trace w2 /\ fs w1 = fs w2).
Proof.
  split.
  - intros w. destruct (loop_shape env maxCaptchaTries 1 w) as (ext & E & _ & _ & _ & F).
    exists ext. auto.
  - intros a code w. apply short_code_as_rejection.
Qed.

(** Claim C6 (as the code has it): the steps of [setup] (proxy URL parse,
    launch, new page, screencast) run outside the try/finally.  When
    [setup] throws, the script ends with that exception, the [finally]
    block is not run (its first line is not logged) and nothing is posted.
    Once [setup] has returned, the [finally] block's first line is logged
    exactly once whatever the workflow's outcome; on every path at most one
    chat notification is posted. *)
Theorem cleanup_once_after_setup env w :
  (count_ev is_tg (trace (fst (script env w))) <= S (count_ev is_tg (trace w)))%nat /\
  (forall w1, setup env w = (w1, Ok tt) ->
     count_line FINISHED_LINE (console (fst (script env w)))
       = S (count_line FINISHED_LINE (console w))) /\
  (forall w1 e, setup env w = (w1, Throw e) ->
     script env w = (w1, Throw e) /\
     count_line FINISHED_LINE (console w1) = count_line FINISHED_LINE (console w) /\
     count_ev is_tg (trace w1) = count_ev is_tg (trace w)).
Proof.
  assert (Htcf : forall w1,
    let w' := fst (try_catch_finally (renewal env) (on_error env) (cleanup env) w1) in
    count_line FINISHED_LINE (console w') = S (count_line FINISHED_LINE (console w1)) /\
    (count_ev is_tg (trace w') <= S (count_ev is_tg (trace w1)))%nat).
  { intros w1. unfold try_catch_finally. pose proof (obs_workflow env w1) as [O1 O2].
    destruct (try_catch (renewal env) (on_error env) w1) as [w2 r2]. simpl in O1, O2.
    pose proof (cleanup_effect_holds env w2) as (_ & C1 & C2).
    destruct (cleanup env w2) as [w3 [[]|e]]; simpl in *; split; lia. }
  unfold script. rewrite bind_run.
  pose proof (framed_setup env w) as (_ & S1 & S2).
  destruct (setup env w) as [w1 [[]|e]] eqn:Es; simpl in S1, S2.
  - rewrite bind_run. pose proof (framed_init_vars w1) as (_ & I1 & I2).
    destruct (init_vars w1) as [w2 [[]|e]] eqn:Ei; simpl in I1, I2.
    + destruct (Htcf w2) as [T1 T2]. cbv zeta in T1, T2. cbn beta iota.
      split; [lia|]. split; [intros w1' E; lia | intros w1' e E; discriminate].
    + exfalso. unfold init_vars in Ei. cbn in Ei. discriminate Ei.
  - simpl. split; [lia|]. split; [intros w1' E; discriminate|].
    intros w1' e' E. injection E as <- <-. auto.
Qed.

(** A run whose browser launch rejects: the script stops before the
    [finally] block, logging nothing and posting no notification. *)
Lemma launch_failure_skips_cleanup_cex :
  snd (script env_launch_fails world_0707) = Throw "Failed to launch the browser process" /\
  count_line FINISHED_LINE (console (fst (script env_launch_fails world_0707))) = 0%nat /\
  count_ev is_tg (trace (fst (script env_launch_fails world_0707))) = 0%nat.
Proof. split; [|split]; vm_compute; reflexivity. Qed.

(** Claim C8: the try/catch of the workflow writes [expire.txt] only when
    it ends in [Success], with a non-empty date that differs from the
    normalized persisted one, and leaves it as it was in every other
    outcome; launching, initialising and the [finally] block never touch
    it, so it is never deleted. *)
Theorem expire_file_written_only_on_success env w :
  expire_file_rule w (try_catch (renewal env) (on_error env) w) /\
  fs (fst (setup env w)) !! expireDateFile = fs w !! expireDateFile /\
  fs (fst (init_vars w)) !! expireDateFile = fs w !! expireDateFile /\
  fs (fst (cleanup env w)) !! expireDateFile = fs w !! expireDateFile.
Proof.
  split; [apply workflow_rule|].
  split; [apply (framed_setup env w)|].
  split; [apply (framed_init_vars w)|].
  apply (cleanup_effect_holds env w).
Qed.

(** Claim C9: on an attempt whose page has no inline CAPTCHA image, the
    loop leaves at once with [solved = true], after probing, saving the page
    HTML and nothing else, provided those page and file operations succeed. *)
Theorem no_captcha_image_solved env r a w :
  env_captcha_img env a = None ->
  (forall t ev, In ev [EvProbeCaptcha a; EvPageContent; EvWriteFile "no_captcha.html"] ->
     env_fail env t ev = None) ->
  exists w', captcha_loop env (S r) a w = (w', Ok true) /\
    trace w' = (trace w ++ [EvProbeCaptcha a; EvPageContent; EvWriteFile "no_captcha.html"])%list.
Proof. apply no_captcha_image_solves. Qed.

Lemma no_captcha_image_solved_witness :
  exists w', captcha_loop env_renewed 3 1 world_0707 = (w', Ok true) /\
    trace w' = (trace world_0707 ++
                [EvProbeCaptcha 1; EvPageContent; EvWriteFile "no_captcha.html"])%list.
Proof.
  apply (no_captcha_image_solved env_renewed 2 1 world_0707).
  - reflexivity.
  - intros t ev _. reflexivity.
Defined.

(* ================================================================== *)
(** * Further properties of the code *)

(** ** formatChineseDate and getNextRenewAvailableDate *)

Lemma search_none_mono {A B} (f : string -> option A) (g : string -> option B) s :
  (forall t, f t <> None -> g t <> None) -> search g s = None -> search f s = None.
Proof.
  intros Hfg. induction s as [|c s IH]; intros Hg; rewrite search_unfold; rewrite search_unfold in Hg.
  - destruct (g "") eqn:E; [discriminate|].
    destruct (f "") eqn:F; [|reflexivity]. exfalso. apply (Hfg ""); congruence.
  - destruct (g (String c s)) eqn:E; [discriminate|].
    destruct (f (String c s)) eqn:F; [exfalso; apply (Hfg (String c s)); congruence|].
    apply IH, Hg.
Qed.

Lemma date2_at_date_at t :
  date2_at t <> None -> date_at t (fun g _ => Some g) <> None.
Proof.
  unfold date2_at, date_at.
  destruct (digits_n 4 t) as [[y r1]|]; [|auto].
  destruct (strip_lit NEN r1) as [r2|]; [|auto].
  unfold digits_1_2 at 1.
  destruct (digits_n 2 r2) as [[mo r3]|]; [|auto].
  destruct (strip_lit GETSU r3) as [r4|] eqn:E4; [|auto].
  unfold digits_1_2.
  destruct (digits_n 2 r4) as [[d r5]|]; [|auto].
  destruct (strip_lit NICHI r5) as [r6|]; [|auto].
  intros _. discriminate.
Qed.

Lemma match_date2_none s : match_date s = None -> match_date2 s = None.
Proof.
  unfold match_date, match_date2. apply search_none_mono. apply date2_at_date_at.
Qed.

Lemma js_String_of_Z_head n :
  exists c rest, js_String_of_Z n = String c rest /\ (c = "-"%char \/ is_digit c = true).
Proof.
  destruct (Z.ltb_spec n 0) as [Hn|Hn].
  - unfold js_String_of_Z. rewrite (proj2 (Z.ltb_lt n 0) Hn). eexists _, _. split; [reflexivity | left; reflexivity].
  - destruct (js_String_of_Z_spec n Hn) as (Ha & _ & Hl & _).
    destruct (js_String_of_Z n) as [|c rest]; [simpl in Hl; lia|].
    exists c, rest. split; [reflexivity|]. right. simpl in Ha. apply andb_prop in Ha. apply Ha.
Qed.

(** [getNextRenewAvailableDate] of a [formatChineseDate] result is
    "未知" exactly when the text holds no date. *)
Theorem getNextRenewAvailableDate_unknown_iff_no_date s :
  getNextRenewAvailableDate (formatChineseDate s) = UNKNOWN <-> match_date s = None.
Proof.
  split.
  - intros H. destruct (match_date s) as [[[y mo] d]|] eqn:Em; [|reflexivity].
    exfalso. rewrite (formatChineseDate_match _ _ _ _ Em) in H.
    destruct (match_date_some _ _ _ _ Em) as (Hy & Hmo & Hd).
    apply padStart0_2_digits in Hmo, Hd.
    unfold getNextRenewAvailableDate in H. rewrite match_date2_exact in H by assumption.
    cbv zeta in H.
    match type of H with context [js_String_of_Z ?Y +:+ _] =>
      destruct (js_String_of_Z_head Y) as (c & rest & E & Hc) end.
    rewrite E in H.
    apply (f_equal (fun s => match s with String c _ => Some c | EmptyString => None end)) in H.
    change (Some c = Some (Ascii.ascii_of_nat 230)) in H. injection H as ->.
    destruct Hc as [Hc|Hc]; [discriminate | vm_compute in Hc; discriminate].
  - intros Em. unfold formatChineseDate. rewrite Em.
    destruct (String.eqb s "") eqn:Es; cbn iota.
    + reflexivity.
    + unfold getNextRenewAvailableDate. rewrite (match_date2_none _ Em). reflexivity.
Qed.

(** ** getExpirationDate *)

Lemma labelled_row_empty td :
  scan_th_td [(EXPIRY_LABEL, td)] = "" <-> td = "".
Proof.
  cbn [scan_th_td]. rewrite String.eqb_refl. split.
  - destruct (match_date (remove_ws td)) as [[[y mo] d]|] eqn:Em; [|auto].
    destruct (match_date_some _ _ _ _ Em) as ([Hl _] & _).
    destruct y; [discriminate|]. discriminate.
  - intros ->. reflexivity.
Qed.

Lemma scan_th_td_first_label pre td post :
  Forall unlabelled pre ->
  scan_th_td (pre ++ (EXPIRY_LABEL, td) :: post) = scan_th_td [(EXPIRY_LABEL, td)].
Proof.
  induction 1 as [|[th td'] pre Hth _ IH]; cbn [app scan_th_td].
  - rewrite String.eqb_refl. reflexivity.
  - unfold unlabelled in Hth; simpl in Hth. apply String.eqb_neq in Hth. rewrite Hth. exact IH.
Qed.

Lemma scan_th_td_no_label rows :
  Forall unlabelled rows -> scan_th_td rows = "".
Proof.
  induction 1 as [|[th td'] pre Hth _ IH]; simpl; [reflexivity|].
  unfold unlabelled in Hth; simpl in Hth. apply String.eqb_neq in Hth. rewrite Hth. exact IH.
Qed.

Lemma scan_th_td_split rows :
  Forall unlabelled rows \/
  exists pre td post, rows = (pre ++ (EXPIRY_LABEL, td) :: post)%list /\
    Forall unlabelled pre.
Proof.
  induction rows as [|[th td] rows IH]; [left; constructor|].
  destruct (String.eqb_spec th EXPIRY_LABEL) as [->|Hne].
  - right. exists [], td, rows. split; [reflexivity | constructor].
  - destruct IH as [IH | (pre & td' & post & -> & Hpre)].
    + left. constructor; assumption.
    + right. exists ((th, td) :: pre), td', post. split; [reflexivity|].
      constructor; assumption.
Qed.

(** [getExpirationDate] never throws; it gives '' exactly when the page
    evaluation rejects, no header reads 利用期限, or the first such row's
    cell is empty. *)
Theorem getExpirationDate_empty_iff env k w :
  exists v, snd (getExpirationDate env k w) = Ok v /\
  (v = "" <->
     env_fail env (trace w) (EvEvaluateThTd k) <> None \/
     Forall unlabelled (env_th_td env k) \/
     exists pre post, env_th_td env k = (pre ++ (EXPIRY_LABEL, "") :: post)%list /\
       Forall unlabelled pre).
Proof.
  unfold getExpirationDate, op.
  destruct (env_fail env (trace w) (EvEvaluateThTd k)) as [e|]; cbn [snd].
  - exists "". split; [reflexivity|]. split; [intros _; left; discriminate | reflexivity].
  - eexists. split; [reflexivity|].
    destruct (scan_th_td_split (env_th_td env k)) as [H | (pre & td & post & E & Hpre)].
    + rewrite (scan_th_td_no_label _ H). split; [intros _; right; left; exact H | reflexivity].
    + rewrite E, (scan_th_td_first_label _ _ _ Hpre), labelled_row_empty. split.
      * intros ->. right; right. exists pre, post. split; [reflexivity | exact Hpre].
      * intros [H | [H | (pre' & post' & E' & Hpre')]]; [congruence | |].
        -- exfalso. apply Forall_app in H as [_ H]. inversion H; subst. unfold unlabelled in *; simpl in *. congruence.
        -- (* both decompositions start at the first labelled row *)
           assert (Hfirst : forall p1 p2 t1 t2 q1 q2,
             (p1 ++ (EXPIRY_LABEL, t1) :: q1 = p2 ++ (EXPIRY_LABEL, t2) :: q2)%list ->
             Forall unlabelled p1 ->
             Forall unlabelled p2 -> t1 = t2).
           { induction p1 as [|r1 p1 IHp]; intros p2 t1 t2 q1 q2 Eq F1 F2;
               destruct p2 as [|r2 p2]; simpl in Eq.
             - congruence.
             - inversion Eq; subst. inversion F2; subst. unfold unlabelled in *; simpl in *. congruence.
             - inversion Eq; subst. inversion F1; subst. unfold unlabelled in *; simpl in *. congruence.
             - inversion Eq; subst. inversion F1; inversion F2; subst. eapply IHp; eauto. }
           exact (Hfirst _ _ _ _ _ _ E' Hpre Hpre').
Qed.

(** Rows after the first 利用期限 row never change the result. *)
Theorem scan_th_td_later_rows_ignored pre td post post' :
  Forall unlabelled pre ->
  scan_th_td (pre ++ (EXPIRY_LABEL, td) :: post) =
  scan_th_td (pre ++ (EXPIRY_LABEL, td) :: post').
Proof. intros H. rewrite !(scan_th_td_first_label _ _ _ H). reflexivity. Qed.

(** ** The WebDAV url *)

Lemma substring_app_len a b n m :
  String.substring (String.length a + n) m (a +:+ b) = String.substring n m b.
Proof. induction a as [|c a IH]; [reflexivity|]. simpl. exact IH. Qed.

Lemma substring_prefix a b :
  String.substring 0 (String.length a) (a +:+ b) = a.
Proof. induction a as [|c a IH]; [destruct b; reflexivity|]. simpl. rewrite IH. reflexivity. Qed.

Lemma strip_trailing_slash_app s : strip_trailing_slash (s +:+ "/") = s.
Proof.
  unfold strip_trailing_slash. rewrite str_length_app. cbn [String.length].
  replace (String.length s + 1 - 1)%nat with (String.length s + 0)%nat by lia.
  rewrite substring_app_len. cbn.
  replace (String.length s + 0)%nat with (String.length s) by lia.
  apply substring_prefix.
Qed.

Lemma string_snoc s : s <> "" -> exists a c, s = a +:+ String c "".
Proof.
  induction s as [|c s IH]; intros H; [congruence|].
  destruct s as [|c' s].
  - exists "", c. reflexivity.
  - destruct IH as (a & c'' & E); [discriminate|].
    exists (String c a), c''. rewrite E. reflexivity.
Qed.

Lemma ends_in_slash_snoc a c : ends_in_slash (a +:+ String c "") = Ascii.eqb c "/".
Proof.
  induction a as [|x a IH]; [reflexivity|].
  cbn [String.append]. destruct a as [|y a]; [reflexivity|]. exact IH.
Qed.

Lemma strip_trailing_slash_id s : ends_in_slash s = false -> strip_trailing_slash s = s.
Proof.
  intros H. destruct (String.eqb_spec s "") as [->|Hne]; [reflexivity|].
  destruct (string_snoc s Hne) as (a & c & ->).
  rewrite ends_in_slash_snoc in H.
  unfold strip_trailing_slash. rewrite str_length_app. cbn [String.length].
  replace (String.length a + 1 - 1)%nat with (String.length a + 0)%nat by lia.
  rewrite substring_app_len. cbn [String.substring String.index].
  destruct (Ascii.ascii_dec "/" c) as [<-|Hc]; [discriminate|].
  unfold String.prefix. destruct (Ascii.ascii_dec "/" c); [contradiction|]. reflexivity.
Qed.

(** ** uploadToWebDAV *)
Open Scope nat_scope.
(** [uploadToWebDAV] never rejects and never touches the files; its message
    is empty exactly when WebDAV is not configured.  It sends no request
    when WebDAV is not configured or the local file is missing, and one PUT
    otherwise. *)
Theorem uploadToWebDAV_never_throws env l r w :
  exists msg, snd (uploadToWebDAV env l r w) = Ok msg /\
    fs (fst (uploadToWebDAV env l r w)) = fs w /\
    (msg = "" <-> env_webdav env = None) /\
    (env_webdav env = None \/ fs w !! l = None ->
       trace (fst (uploadToWebDAV env l r w)) = trace w) /\
    (env_webdav env <> None -> fs w !! l <> None ->
       exists url, trace (fst (uploadToWebDAV env l r w)) = (trace w ++ [EvWebdavPut url])%list).
Proof.
  unfold uploadToWebDAV. destruct (env_webdav env) as [[u p]|].
  - cbv zeta. destruct (fs w !! l) as [c|] eqn:El.
    + destruct (env_put env) as [e|]; rewrite bind_run; unfold log at 1; cbn beta iota.
      * eexists. split; [reflexivity|]. split; [reflexivity|].
        split; [split; [discriminate | discriminate]|].
        split; [intros [H|H]; discriminate|].
        intros _ _. eexists. reflexivity.
      * eexists. split; [reflexivity|]. split; [reflexivity|].
        split; [split; [discriminate | discriminate]|].
        split; [intros [H|H]; discriminate|].
        intros _ _. eexists. reflexivity.
    + rewrite bind_run; unfold log at 1; cbn beta iota.
      eexists. split; [reflexivity|]. split; [reflexivity|].
      split; [split; [discriminate | discriminate]|].
      split; [intros _; reflexivity|]. intros _ []; reflexivity.
  - rewrite bind_run. unfold log at 1. cbn beta iota.
    eexists. split; [reflexivity|]. split; [reflexivity|].
    split; [split; reflexivity|]. split; [reflexivity|]. intros []; reflexivity.
Qed.

(** The PUT url: one trailing slash on [WEBDAV_URL] or [WEBDAV_SAVE_PATH]
    makes no difference. *)
Theorem uploadToWebDAV_url env l r w u p u' p' :
  ends_in_slash u = false -> ends_in_slash p = false ->
  (u' = u \/ u' = u +:+ "/") -> (p' = p \/ p' = p +:+ "/") ->
  env_webdav env = Some (u', p') ->
  fs w !! l <> None ->
  trace (fst (uploadToWebDAV env l r w)) =
    (trace w ++ [EvWebdavPut (u +:+ "/" +:+
                   (if String.eqb p "" then r else p +:+ "/" +:+ r))])%list.
Proof.
  intros Hu Hp Eu Ep E Hl. unfold uploadToWebDAV. rewrite E. cbv zeta.
  destruct (fs w !! l) as [c|]; [|contradiction].
  assert (Su : strip_trailing_slash u' = u)
    by (destruct Eu as [->| ->]; [apply strip_trailing_slash_id, Hu | apply strip_trailing_slash_app]).
  assert (Sp : strip_trailing_slash p' = p)
    by (destruct Ep as [->| ->]; [apply strip_trailing_slash_id, Hp | apply strip_trailing_slash_app]).
  rewrite Su, Sp.
  destruct (env_put env); rewrite bind_run; unfold log at 1; cbn beta iota; reflexivity.
Qed.

(** ** sendTelegramMessage *)
(** [sendTelegramMessage] never rejects, leaves the files alone, and posts
    the message once when the bot is configured, nothing otherwise. *)
Theorem sendTelegramMessage_posts_once env msg w :
  snd (sendTelegramMessage env msg w) = Ok tt /\
  fs (fst (sendTelegramMessage env msg w)) = fs w /\
  trace (fst (sendTelegramMessage env msg w)) =
    (trace w ++ (if env_tg env then [EvTelegramPost msg] else []))%list.
Proof.
  unfold sendTelegramMessage. destruct (env_tg env).
  - destruct (env_fail env (trace w) (EvTelegramPost msg)); repeat split.
  - rewrite app_nil_r. repeat split.
Qed.

(** ** The merged notification *)
Lemma str_app_eq_nil a b : a +:+ b = "" -> a = "" /\ b = "".
Proof. destruct a; [auto | discriminate]. Qed.

(** The merged notification is empty exactly when all three parts are. *)
Theorem final_notification_empty_iff e i m :
  final_notification e i m = "" <-> e = "" /\ i = "" /\ m = "".
Proof.
  unfold final_notification.
  destruct (String.eqb_spec e "") as [->|He], (String.eqb_spec i "") as [->|Hi],
    (String.eqb_spec m "") as [->|Hm]; cbn [negb];
    split; intros H; try (destruct H as (? & ? & ?); congruence);
    try (apply str_app_eq_nil in H as [? _]; congruence); auto; congruence.
Qed.

(** An error message takes precedence: the info message is then dropped. *)
Theorem final_notification_precedence e i i' m :
  e <> "" ->
  final_notification e i m = final_notification e i' m /\
  final_notification e i m = e +:+ (if String.eqb m "" then "" else nl +:+ nl +:+ "---" +:+ nl +:+ m).
Proof.
  intros He. unfold final_notification. apply String.eqb_neq in He. rewrite He. cbn [negb].
  split; [reflexivity|].
  destruct (String.eqb m ""); cbn [negb]; [symmetry; apply str_app_nil_r | reflexivity].
Qed.

(** The merged notification always ends with the WebDAV message. *)
Theorem final_notification_ends_with_webdav e i m :
  exists pre, final_notification e i m = pre +:+ m.
Proof.
  unfold final_notification.
  destruct (String.eqb_spec m "") as [->|Hm]; cbn [negb].
  - eexists. symmetry. apply str_app_nil_r.
  - destruct (negb (String.eqb e "")); [|destruct (negb (String.eqb i ""))].
    + exists (e +:+ nl +:+ nl +:+ "---" +:+ nl). rewrite !str_app_assoc. reflexivity.
    + exists (i +:+ nl +:+ nl +:+ "---" +:+ nl). rewrite !str_app_assoc. reflexivity.
    + exists "". reflexivity.
Qed.

(** ** CAPTCHA failure screenshots *)
Lemma str_app_inv_l a b c : a +:+ b = a +:+ c -> b = c.
Proof. induction a as [|x a IH]; simpl; [auto | intros H; injection H; auto]. Qed.

Lemma str_app_inv_r a b c : a +:+ c = b +:+ c -> a = b.
Proof.
  revert b. induction a as [|x a IH]; intros b H; destruct b as [|y b].
  - reflexivity.
  - exfalso. apply (f_equal String.length) in H. rewrite !str_length_app in H. simpl in H. lia.
  - exfalso. apply (f_equal String.length) in H. rewrite !str_length_app in H. simpl in H. lia.
  - simpl in H. injection H as -> H. f_equal. apply IH, H.
Qed.

(** Distinct attempts write their failure screenshots to distinct files. *)
Theorem captcha_failed_path_injective a b :
  captcha_failed_path a = captcha_failed_path b -> a = b.
Proof.
  unfold captcha_failed_path. intros H.
  apply str_app_inv_l, str_app_inv_r in H.
  destruct (js_String_of_Z_spec (Z.of_nat a)) as (_ & Ha & _); [lia|].
  destruct (js_String_of_Z_spec (Z.of_nat b)) as (_ & Hb & _); [lia|].
  rewrite H in Ha. lia.
Qed.

(** ** The first run *)
(** On a first run (nothing persisted) a found date is a success and is
    persisted, unless it is "未知", which counts as unchanged. *)
Theorem classify_first_run env n nx w :
  lastExpireDate w = "" -> n <> "" ->
  (n <> UNKNOWN ->
     env_fail env (trace w) (EvWriteFile expireDateFile) = None ->
     snd (classify env n nx w) = Ok Success /\
     fs (fst (classify env n nx w)) !! expireDateFile = Some n) /\
  (n = UNKNOWN ->
     snd (classify env n nx w) = Ok Unchanged /\
     fs (fst (classify env n nx w)) = fs w).
Proof.
  intros Hl Hn. unfold classify. rewrite bind_run. cbn [get_world]. rewrite Hl.
  change (formatChineseDate "") with UNKNOWN.
  apply String.eqb_neq in Hn. rewrite Hn. cbn [negb andb].
  split.
  - intros Hu Hf. apply String.eqb_neq in Hu. rewrite Hu. cbn [negb].
    rewrite !bind_run. unfold now_string. cbn beta iota.
    rewrite !bind_run. unfold log. cbn beta iota.
    rewrite !bind_run. unfold set_infoMessage. cbn beta iota.
    rewrite !bind_run. unfold writeFileSync. unfold op.
    cbn [record fs trace lastExpireDate console infoMessage scriptErrorMessage].
    rewrite Hf. cbn beta iota. split; [reflexivity|]. cbn [fst fs set_file].
    apply lookup_insert_eq.
  - intros ->. rewrite String.eqb_refl. cbn [negb].
    rewrite !bind_run. unfold now_string. cbn beta iota.
    rewrite !bind_run. unfold log. cbn beta iota.
    rewrite !bind_run. unfold set_infoMessage. cbn beta iota.
    split; reflexivity.
Qed.

(** ** The workflow's error handling *)

Lemma not_error_bind {A} (m : M A) (k : A -> M Outcome) :
  (forall a, not_error (k a)) -> not_error (m ≫= k).
Proof.
  intros Hk w. rewrite bind_run. destruct (m w) as [w1 [a|e]]; [apply Hk | discriminate].
Qed.

Lemma not_error_ret o : o <> Error -> not_error (mret o).
Proof. intros H w E. injection E as E. contradiction. Qed.

Lemma not_error_throw e : not_error (throw e).
Proof. intros w. discriminate. Qed.

Lemma not_error_renewal env : not_error (renewal env).
Proof.
  unfold renewal, after_captcha, classify. cbv zeta.
  repeat first
    [ apply not_error_bind; intros ?
    | apply not_error_ret; discriminate
    | apply not_error_throw
    | case_match ].
Qed.

Lemma keeps_err_bind {A B} (m : M A) (k : A -> M B) :
  keeps_err m -> (forall a, keeps_err (k a)) -> keeps_err (m ≫= k).
Proof.
  intros Hm Hk w. rewrite bind_run. specialize (Hm w).
  destruct (m w) as [w1 [a|e]]; simpl in *; [rewrite Hk; exact Hm | exact Hm].
Qed.

Lemma keeps_err_all2 (a b : M unit) : keeps_err a -> keeps_err b -> keeps_err (all2 a b).
Proof.
  intros Ha Hb w. unfold all2. specialize (Ha w).
  destruct (a w) as [w1 r1]. specialize (Hb w1). destruct (b w1) as [w2 r2].
  simpl in *. destruct r1, r2; simpl; congruence.
Qed.

Lemma keeps_err_readFileSync env p : keeps_err (readFileSync env p).
Proof.
  intros w. unfold readFileSync, op.
  destruct (env_fail env (trace w) (EvReadFile p)); [reflexivity|].
  destruct (fs w !! p); reflexivity.
Qed.

Lemma keeps_err_getExpirationDate env k : keeps_err (getExpirationDate env k).
Proof. intros w. unfold getExpirationDate, op. destruct (env_fail env _ _); reflexivity. Qed.

Ltac keeps_leaf :=
  intros ?w; unfold op, sleep, now_string, existsSync, readFileSync, writeFileSync,
    getExpirationDate, captcha_probe, page_content, recognize, screenshot, nav_race,
    evaluate_body, log, set_lastExpireDate, set_infoMessage, get_world, mret, M_ret, throw;
  repeat (case_match; cbn [fst snd] in *; subst); reflexivity.

Ltac keeps_tac :=
  repeat first
    [ apply keeps_err_bind; [| intros ?]
    | apply keeps_err_all2
    | apply keeps_err_readFileSync
    | apply keeps_err_getExpirationDate
    | case_match
    | keeps_leaf ].

Lemma keeps_err_before_captcha env : keeps_err (before_captcha env).
Proof. unfold before_captcha. keeps_tac. Qed.

Lemma keeps_err_captcha_attempt env a : keeps_err (captcha_attempt env a).
Proof. unfold captcha_attempt. keeps_tac. Qed.

Lemma keeps_err_captcha_loop env r a : keeps_err (captcha_loop env r a).
Proof.
  revert a; induction r as [|r IH]; intros a; simpl; [keeps_leaf|].
  apply keeps_err_bind; [apply keeps_err_captcha_attempt | intros []; [keeps_leaf | apply IH]].
Qed.

Lemma keeps_err_renewal env : keeps_err (renewal env).
Proof.
  unfold renewal. apply keeps_err_bind; [apply keeps_err_before_captcha | intros cur].
  apply keeps_err_bind; [apply keeps_err_captcha_loop | intros solved].
  unfold after_captcha, classify. cbv zeta. keeps_tac.
Qed.

(** The catch of lines 319-321: the workflow ends in [Error] exactly when
    the renewal throws, and only then is the error message set. *)
Theorem workflow_error_iff_renewal_throws env w :
  let '(w', r) := try_catch (renewal env) (on_error env) w in
  (exists o, r = Ok o) /\
  (r = Ok Error <-> exists e, snd (renewal env w) = Throw e) /\
  (forall e, snd (renewal env w) = Throw e ->
     exists t, scriptErrorMessage w' = error_message e t) /\
  (forall o, snd (renewal env w) = Ok o -> scriptErrorMessage w' = scriptErrorMessage w).
Proof.
  unfold try_catch. pose proof (not_error_renewal env w) as NE.
  pose proof (keeps_err_renewal env w) as KE.
  destruct (renewal env w) as [w1 [o|e]]; cbn [fst snd] in NE, KE |- *.
  - split; [eauto|]. split; [split; [congruence | intros [e' H]; discriminate]|].
    split; [intros e' H; discriminate | intros o' _; exact KE].
  - unfold on_error. rewrite !bind_run. unfold log, now_string, set_scriptErrorMessage.
    cbn beta iota. cbn [fst snd scriptErrorMessage].
    split; [eauto|]. split; [split; [eauto | reflexivity]|].
    split; [intros e' H; injection H as <-; eauto | intros o' H; discriminate].
Qed.

(** ** Setup *)
(** A rejected [page.authenticate] is caught: setup still succeeds when
    the URL parse, the launch, the page and the recorder succeed. *)
Theorem setup_survives_proxy_auth_failure env w :
  env_fail env (trace w) EvParseProxyUrl = None ->
  (forall tr, env_fail env tr EvLaunch = None) ->
  (forall tr, env_fail env tr EvNewPage = None) ->
  (forall tr, env_fail env tr EvScreencast = None) ->
  snd (setup env w) = Ok tt.
Proof.
  intros Hp Hl Hn Hs. unfold setup.
  rewrite bind_run.
  assert (E0 : exists w0, (match env_proxy env with Some _ => op env EvParseProxyUrl | None => mret tt end) w = (w0, Ok tt)).
  { destruct (env_proxy env); [unfold op; rewrite Hp; eauto | eexists; reflexivity]. }
  destruct E0 as [w0 ->]. cbn beta iota.
  rewrite bind_run. unfold op at 1. rewrite Hl. cbn beta iota.
  rewrite bind_run. unfold op at 1. rewrite Hn. cbn beta iota.
  rewrite bind_run.
  assert (T : forall (m : M unit) w1, exists w2,
             try_catch m (fun _ => log "代理认证配置出错:") w1 = (w2, Ok tt)).
  { intros m w1. unfold try_catch. destruct (m w1) as [w2 [[]|e]]; eexists; reflexivity. }
  match goal with |- context [try_catch ?m ?h ?w1] => destruct (T m w1) as [w2 ->] end.
  cbn beta iota. unfold op. rewrite Hs. reflexivity.
Qed.

(** ** The notification the cleanup posts *)
Lemma final_notification_head e i m :
  exists rest, final_notification e i m =
    (if String.eqb e "" then (if String.eqb i "" then m else i) else e) +:+ rest.
Proof.
  unfold final_notification.
  destruct (String.eqb e ""), (String.eqb i ""), (String.eqb m ""); cbn [negb];
    first [ exists ""; symmetry; apply str_app_nil_r
          | eexists; rewrite ?str_app_assoc; reflexivity ].
Qed.

Lemma msgs_recorder_stop env w :
  (forall tr, env_fail env tr EvRecorderStop = None) ->
  exists w', recorder_stop env w = (w', Ok tt) /\
    scriptErrorMessage w' = scriptErrorMessage w /\ infoMessage w' = infoMessage w.
Proof.
  intros H. unfold recorder_stop, op. rewrite H. cbn beta iota.
  destruct (env_recording env); eexists; (split; [reflexivity | split; reflexivity]).
Qed.

Lemma msgs_upload env l r w :
  exists w' msg, uploadToWebDAV env l r w = (w', Ok msg) /\
    scriptErrorMessage w' = scriptErrorMessage w /\ infoMessage w' = infoMessage w.
Proof.
  unfold uploadToWebDAV. destruct (env_webdav env) as [[u p]|].
  - cbv zeta. destruct (fs w !! l); [destruct (env_put env)|];
      rewrite bind_run; unfold log at 1; cbn beta iota;
      do 2 eexists; (split; [reflexivity | split; reflexivity]).
  - rewrite bind_run. unfold log at 1. cbn beta iota.
    do 2 eexists; (split; [reflexivity | split; reflexivity]).
Qed.

(** With the bot configured and the recorder and browser closing, the
    cleanup posts a message that starts with the error message, or with
    the info message when there is no error. *)
Theorem cleanup_posts_outcome env w :
  env_tg env = true ->
  (forall tr, env_fail env tr EvRecorderStop = None) ->
  (forall tr, env_fail env tr EvBrowserClose = None) ->
  scriptErrorMessage w <> "" \/ infoMessage w <> "" ->
  exists rest,
    In (EvTelegramPost
          ((if String.eqb (scriptErrorMessage w) "" then infoMessage w
            else scriptErrorMessage w) +:+ rest))
       (trace (fst (cleanup env w))).
Proof.
  intros Htg Hr Hc Hm. unfold cleanup.
  rewrite bind_run. unfold log at 1. cbn beta iota.
  rewrite bind_run. unfold sleep at 1. cbn beta iota.
  rewrite bind_run.
  match goal with |- context [recorder_stop env ?w2] =>
    destruct (msgs_recorder_stop env w2 Hr) as (w3 & -> & E1 & E2) end.
  cbn beta iota. cbn [scriptErrorMessage infoMessage record] in E1, E2.
  rewrite bind_run. unfold op at 1. rewrite Hc. cbn beta iota.
  rewrite bind_run. unfold existsSync at 1. cbn beta iota.
  set (w4 := record EvBrowserClose w3).
  assert (E3 : scriptErrorMessage w4 = scriptErrorMessage w /\ infoMessage w4 = infoMessage w)
    by (split; assumption).
  clearbody w4. clear E1 E2.
  rewrite bind_run.
  match goal with |- context [match (if ?ex then ?a else ?b) w4 with _ => _ end] =>
    assert (U : exists w5 msg, (if ex then a else b) w4 = (w5, Ok msg) /\
      scriptErrorMessage w5 = scriptErrorMessage w /\ infoMessage w5 = infoMessage w);
    [destruct ex | destruct U as (w5 & msg & E5 & F1 & F2)] end.
  { rewrite bind_run. unfold now_string at 1. cbn beta iota.
    match goal with |- context [uploadToWebDAV env ?l ?r w4] =>
      destruct (msgs_upload env l r w4) as (w5 & msg & -> & F1 & F2) end.
    do 2 eexists. split; [reflexivity|]. destruct E3; split; congruence. }
  { do 2 eexists; split; [reflexivity | exact E3]. }
  rewrite E5. cbn beta iota.
  rewrite bind_run. cbn [get_world]. cbv zeta. rewrite F1, F2.
  destruct (final_notification_head (scriptErrorMessage w) (infoMessage w) msg) as [rest Er].
  assert (Hne : String.eqb (final_notification (scriptErrorMessage w) (infoMessage w) msg) "" = false).
  { rewrite Er. apply String.eqb_neq. intros Z. apply str_app_eq_nil in Z as [Z _].
    destruct (String.eqb_spec (scriptErrorMessage w) "") as [He|He];
      [destruct (String.eqb_spec (infoMessage w) "") as [Hi|Hi]|]; destruct Hm; congruence. }
  rewrite Hne. cbn [negb].
  unfold sendTelegramMessage. rewrite Htg.
  exists (if String.eqb (scriptErrorMessage w) "" then (if String.eqb (infoMessage w) "" then "" else rest) else rest).
  destruct (env_fail env _ _); cbn [fst trace record log];
    apply in_or_app; right; left; f_equal; rewrite Er;
    destruct (String.eqb_spec (scriptErrorMessage w) "") as [He|He];
      try destruct (String.eqb_spec (infoMessage w) "") as [Hi|Hi]; try reflexivity;
      destruct Hm; congruence.
Qed.

(** ** The CAPTCHA error only after every attempt *)
Lemma filter_probe_none l :
  Forall (fun e => is_probe e = false /\ fill_ok e) l -> List.filter is_probe l = [].
Proof. induction 1 as [|e l [He _] _ IH]; simpl; [reflexivity | rewrite He; exact IH]. Qed.

Lemma loop_unsolved_probes env r a w :
  snd (captcha_loop env r a w) = Ok false ->
  exists ext, trace (fst (captcha_loop env r a w)) = (trace w ++ ext)%list /\
    List.filter is_probe ext = map EvProbeCaptcha (seq a r).
Proof.
  revert a w; induction r as [|r IH]; intros a w; simpl.
  - intros _. exists []. split; [symmetry; apply app_nil_r | reflexivity].
  - rewrite bind_run. destruct (attempt_shape env a w) as (e1 & E1 & F1 & _).
    destruct (captcha_attempt env a w) as [w1 [[]|err]]; simpl in E1 |- *;
      [discriminate | | discriminate].
    intros H. destruct (IH (S a) w1 H) as (e2 & E2 & P2).
    exists (EvProbeCaptcha a :: e1 ++ e2)%list. split.
    + rewrite E2, E1, <- app_assoc. reflexivity.
    + simpl. rewrite List.filter_app, (filter_probe_none e1 F1). simpl. rewrite P2. reflexivity.
Qed.

(** The CAPTCHA loop gives up only after probing attempts 1, 2 and 3. *)
Theorem captcha_error_after_all_attempts env w :
  snd (captcha_loop env maxCaptchaTries 1 w) = Ok false ->
  exists ext, trace (fst (captcha_loop env maxCaptchaTries 1 w)) = (trace w ++ ext)%list /\
    List.filter is_probe ext = [EvProbeCaptcha 1; EvProbeCaptcha 2; EvProbeCaptcha 3].
Proof. apply loop_unsolved_probes. Qed.

(** ** getBeijingTimeString *)
Open Scope Z_scope.
Lemma civil_from_days_range z :
  let '(y, m, d) := civil_from_days z in 1 <= m <= 12 /\ 1 <= d <= 31.
Proof.
  unfold civil_from_days. cbv zeta.
  set (doe := z + 719468 - (z + 719468) / 146097 * 146097).
  assert (Hdoe : 0 <= doe <= 146096) by (subst doe; Z.div_mod_to_equations; lia).
  set (yoe := (doe - doe / 1460 + doe / 36524 - doe / 146096) / 365).
  assert (Hdoy : 0 <= doe - (365 * yoe + yoe / 4 - yoe / 100) <= 365).
  { subst yoe. clearbody doe.
    assert (Hc : doe / 36524 = 0 \/ doe / 36524 = 1 \/ doe / 36524 = 2 \/ doe / 36524 = 3 \/
                 doe / 36524 = 4) by (Z.div_mod_to_equations; lia).
    destruct Hc as [Hc|[Hc|[Hc|[Hc|Hc]]]]; rewrite Hc; Z.div_mod_to_equations; lia. }
  set (doy := doe - (365 * yoe + yoe / 4 - yoe / 100)) in *. clearbody doy.
  destruct (Z.ltb_spec ((5 * doy + 2) / 153) 10); cbn beta iota;
    [destruct (Z.leb_spec ((5 * doy + 2) / 153 + 3) 2) | destruct (Z.leb_spec ((5 * doy + 2) / 153 - 9) 2)];
    split; Z.div_mod_to_equations; lia.
Qed.

(** The Beijing time string is "Y-MM-DD HH:mm" with a month in 1..12, a
    day in 1..31, an hour below 24 and a minute below 60. *)
Theorem getBeijingTimeString_fields now tz :
  exists y mo d hh mi,
    getBeijingTimeString now tz =
      js_String_of_Z y +:+ "-" +:+ mo +:+ "-" +:+ d +:+ " " +:+ hh +:+ ":" +:+ mi /\
    civil_from_days ((now + 8 * 60 * 60 * 1000 + tz) / 86400000) = (y, js_Number mo, js_Number d) /\
    digit_string 2 mo /\ digit_string 2 d /\ digit_string 2 hh /\ digit_string 2 mi /\
    1 <= js_Number mo <= 12 /\ 1 <= js_Number d <= 31 /\
    js_Number hh = (now + 8 * 60 * 60 * 1000 + tz) mod 86400000 / 3600000 /\ js_Number hh < 24 /\
    js_Number mi < 60.
Proof.
  unfold getBeijingTimeString. cbv zeta.
  set (t := now + 8 * 60 * 60 * 1000 + tz).
  pose proof (civil_from_days_range (t / 86400000)) as R.
  destruct (civil_from_days (t / 86400000)) as [[y m] d] eqn:C.
  destruct R as [Rm Rd].
  assert (Hms : 0 <= t mod 86400000 < 86400000) by (apply Z.mod_pos_bound; lia).
  destruct (padStart0_spelled 2 m) as [Dm Nm]; [lia | simpl; lia |].
  destruct (padStart0_spelled 2 d) as [Dd Nd]; [lia | simpl; lia |].
  destruct (padStart0_spelled 2 (t mod 86400000 / 3600000)) as [Dh Nh];
    [lia | simpl; split; [apply Z.div_pos; lia | apply Z.div_lt_upper_bound; lia] |].
  destruct (padStart0_spelled 2 (t mod 86400000 / 60000 mod 60)) as [Di Ni];
    [lia | simpl; pose proof (Z.mod_pos_bound (t mod 86400000 / 60000) 60); lia |].
  do 5 eexists. split; [reflexivity|].
  rewrite Nm, Nd, Nh, Ni.
  split; [reflexivity|]. do 4 (split; [assumption|]).
  split; [lia|]. split; [lia|]. split; [reflexivity|].
  split; [apply Z.div_lt_upper_bound; lia|].
  pose proof (Z.mod_pos_bound (t mod 86400000 / 60000) 60). lia.
Qed.

Open Scope string_scope.
Open Scope nat_scope.

Lemma substring_full s : String.substring 0 (String.length s) s = s.
Proof. induction s as [|c s IH]; [reflexivity|]. simpl. rewrite IH. reflexivity. Qed.

Lemma ws_lex_ts f c s :
  ts_char c = true ->
  ws_lex (S f) (String c s) = (Ascii.eqb c " ", String c "") :: ws_lex f s.
Proof.
  intros H. destruct (Ascii.eqb_spec c " ") as [->|Hc].
  - cbn [ws_lex]. change (ws_prefix_len (String " " s)) with (Some 1).
    cbv iota. f_equal; [f_equal; destruct s; reflexivity|].
    f_equal. change (String.length (String " " s) - 1) with (String.length s - 0).
    rewrite Nat.sub_0_r. cbn [String.substring]. apply substring_full.
  - assert (E : ws_prefix_len (String c s) = None).
    { destruct c as [[] [] [] [] [] [] [] []]; try discriminate H;
        try (exfalso; apply Hc; reflexivity);
        destruct s as [|b [|k r]]; reflexivity. }
    cbn [ws_lex]. rewrite E. reflexivity.
Qed.

Lemma ws_lex_dash f s :
  String.length s <= f -> all_chars ts_char s = true ->
  concat_tokens (map (fun t => if t.1 || String.eqb t.2 ":" then (false, "-") else t)
                     (ws_lex f s)) = dash_ws_colon s.
Proof.
  revert f. induction s as [|c s IH]; intros f Hf Hs.
  - destruct f; reflexivity.
  - destruct f as [|f]; [simpl in Hf; lia|].
    simpl in Hs. apply andb_prop in Hs as [Hc Hs].
    rewrite (ws_lex_ts f c s Hc). cbn [map].
    unfold concat_tokens. cbn [foldr].
    fold (concat_tokens (map (fun t => if t.1 || String.eqb t.2 ":" then (false, "-") else t)
                         (ws_lex f s))).
    rewrite (IH f) by (simpl in Hf; lia || assumption).
    cbn [dash_ws_colon fst snd].
    destruct (Ascii.eqb_spec c " ") as [->|H1]; [reflexivity|].
    destruct (Ascii.eqb_spec c ":") as [->|H2]; [reflexivity|].
    cbn [orb]. replace (String.eqb (String c "") ":") with false; [reflexivity|].
    symmetry. apply String.eqb_neq. intros E. injection E. auto.
Qed.

Lemma replace_ws_colon_ts s :
  all_chars ts_char s = true -> replace_ws_colon s = dash_ws_colon s.
Proof. intros H. apply ws_lex_dash; [lia | exact H]. Qed.

Lemma all_chars_app p a b : all_chars p (a +:+ b) = all_chars p a && all_chars p b.
Proof. induction a as [|c a IH]; simpl; [reflexivity | rewrite IH; apply andb_assoc]. Qed.

Lemma dash_app a b : dash_ws_colon (a +:+ b) = dash_ws_colon a +:+ dash_ws_colon b.
Proof. induction a as [|c a IH]; simpl; [reflexivity | rewrite IH; reflexivity]. Qed.

Lemma all_chars_impl (p q : ascii -> bool) s :
  (forall c, p c = true -> q c = true) -> all_chars p s = true -> all_chars q s = true.
Proof.
  intros Hpq. induction s as [|c s IH]; simpl; [auto|].
  intros H. apply andb_prop in H as [H1 H2]. rewrite Hpq, IH; auto.
Qed.

Lemma dash_id s : all_chars digit_or_dash s = true -> dash_ws_colon s = s.
Proof.
  induction s as [|c s IH]; simpl; [auto|]. intros H. apply andb_prop in H as [H1 H2].
  rewrite IH by exact H2.
  destruct (Ascii.eqb_spec c " ") as [->|Hs]; [discriminate|].
  destruct (Ascii.eqb_spec c ":") as [->|Hc]; [discriminate|]. reflexivity.
Qed.

Lemma all_digits_chars s : all_digits s = true -> all_chars digit_or_dash s = true.
Proof.
  induction s as [|c s IH]; simpl; [auto|]. intros H. apply andb_prop in H as [H1 H2].
  rewrite IH by exact H2. unfold digit_or_dash. rewrite H1. reflexivity.
Qed.

Lemma js_String_of_Z_chars n : all_chars digit_or_dash (js_String_of_Z n) = true.
Proof.
  destruct (Z.ltb_spec n 0) as [Hn|Hn].
  - assert (E : js_String_of_Z n = "-" +:+ js_String_of_Z (- n)).
    { unfold js_String_of_Z. rewrite (proj2 (Z.ltb_lt n 0) Hn).
      destruct (Z.ltb_spec (- n) 0); [lia|]. reflexivity. }
    rewrite E. simpl. apply all_digits_chars.
    apply (js_String_of_Z_spec (- n)). lia.
  - apply all_digits_chars, (js_String_of_Z_spec n Hn).
Qed.

Lemma digit_or_dash_ts c : digit_or_dash c = true -> ts_char c = true.
Proof. unfold digit_or_dash, ts_char. intros H. rewrite H. reflexivity. Qed.

(** The timestamp of the remote recording name has only digits and
    dashes: spaces and colons become dashes. *)
Theorem remote_timestamp_digits_and_dashes now tz :
  exists y mo d hh mi,
    getBeijingTimeString now tz =
      js_String_of_Z y +:+ "-" +:+ mo +:+ "-" +:+ d +:+ " " +:+ hh +:+ ":" +:+ mi /\
    replace_ws_colon (getBeijingTimeString now tz) =
      js_String_of_Z y +:+ "-" +:+ mo +:+ "-" +:+ d +:+ "-" +:+ hh +:+ "-" +:+ mi /\
    all_chars digit_or_dash (replace_ws_colon (getBeijingTimeString now tz)) = true.
Proof.
  unfold getBeijingTimeString. cbv zeta.
  destruct (civil_from_days _) as [[y m] d].
  set (mo := padStart0 2 (js_String_of_Z m)).
  set (dd := padStart0 2 (js_String_of_Z d)).
  set (hh := padStart0 2 (js_String_of_Z ((now + 8 * 60 * 60 * 1000 + tz) mod 86400000 / 3600000))).
  set (mi := padStart0 2 (js_String_of_Z ((now + 8 * 60 * 60 * 1000 + tz) mod 86400000 / 60000 mod 60))).
  assert (Hpad : forall s, all_chars digit_or_dash s = true ->
                 all_chars digit_or_dash (padStart0 2 s) = true).
  { intros s Hs. unfold padStart0. destruct (2 <=? js_length s); [exact Hs|].
    rewrite all_chars_app, Hs, andb_true_r. apply all_digits_chars, (zeros_spec _). }
  assert (Hmo := Hpad _ (js_String_of_Z_chars m)).
  assert (Hdd := Hpad _ (js_String_of_Z_chars d)).
  assert (Hhh := Hpad _ (js_String_of_Z_chars ((now + 8 * 60 * 60 * 1000 + tz) mod 86400000 / 3600000))).
  assert (Hmi := Hpad _ (js_String_of_Z_chars ((now + 8 * 60 * 60 * 1000 + tz) mod 86400000 / 60000 mod 60))).
  fold mo dd hh mi in Hmo, Hdd, Hhh, Hmi. clear Hpad.
  pose proof (js_String_of_Z_chars y) as Hy.
  assert (Hts : forall s, all_chars digit_or_dash s = true -> all_chars ts_char s = true)
    by (intros s; apply all_chars_impl, digit_or_dash_ts).
  assert (R : replace_ws_colon
      (js_String_of_Z y +:+ "-" +:+ mo +:+ "-" +:+ dd +:+ " " +:+ hh +:+ ":" +:+ mi) =
      js_String_of_Z y +:+ "-" +:+ mo +:+ "-" +:+ dd +:+ "-" +:+ hh +:+ "-" +:+ mi).
  { rewrite replace_ws_colon_ts.
    - rewrite !dash_app, (dash_id _ Hy), (dash_id _ Hmo), (dash_id _ Hdd), (dash_id _ Hhh), (dash_id _ Hmi). reflexivity.
    - rewrite !all_chars_app, (Hts _ Hy), (Hts _ Hmo), (Hts _ Hdd), (Hts _ Hhh), (Hts _ Hmi). reflexivity. }
  exists y, mo, dd, hh, mi. split; [reflexivity|]. rewrite R. split; [reflexivity|].
  rewrite !all_chars_app, Hy, Hmo, Hdd, Hhh, Hmi. reflexivity.
Qed.

Open Scope nat_scope.

(** ** part_000: the reader and the classification *)

(** part_000 compares the fresh date with the persisted one as raw text:
    equal texts are unchanged, different texts a success that is persisted,
    and an empty date throws. *)
Theorem old_classify_raw_comparison env n w :
  (n = "" -> old_classify env n w = (w, Throw NOT_FOUND_ERROR)) /\
  (n <> "" -> n = lastExpireDate w ->
     snd (old_classify env n w) = Ok Unchanged /\ fs (fst (old_classify env n w)) = fs w) /\
  (n <> "" -> n <> lastExpireDate w ->
     env_fail env (trace w) (EvWriteFile expireDateFile) = None ->
     snd (old_classify env n w) = Ok Success /\
     fs (fst (old_classify env n w)) !! expireDateFile = Some n).
Proof.
  unfold old_classify. rewrite bind_run. cbn [get_world].
  split; [intros ->; reflexivity|]. split.
  - intros Hn ->. apply String.eqb_neq in Hn. rewrite Hn, String.eqb_refl. cbn [negb andb].
    rewrite !bind_run. unfold old_now_string. cbn beta iota.
    rewrite !bind_run. unfold log. cbn beta iota.
    rewrite !bind_run. unfold set_infoMessage. cbn beta iota.
    split; reflexivity.
  - intros Hn Hl Hf. apply String.eqb_neq in Hn, Hl. rewrite Hn, Hl. cbn [negb andb].
    rewrite !bind_run. unfold old_now_string. cbn beta iota.
    rewrite !bind_run. unfold log. cbn beta iota.
    rewrite !bind_run. unfold set_infoMessage. cbn beta iota.
    rewrite !bind_run. unfold writeFileSync, op.
    cbn [record fs trace lastExpireDate console infoMessage scriptErrorMessage].
    rewrite Hf. cbn beta iota. split; [reflexivity|]. cbn [fst fs set_file].
    apply lookup_insert_eq.
Qed.

(** part_000: a 利用期限 header with no sibling cell is skipped. *)
Theorem old_scan_th_skips_bare_header pre th post :
  old_scan_th (pre ++ (th, None) :: post) = old_scan_th (pre ++ post).
Proof.
  induction pre as [|[th' sib] pre IH]; cbn [app old_scan_th].
  - destruct (String.eqb (trim th) EXPIRY_LABEL); reflexivity.
  - rewrite IH. reflexivity.
Qed.

Lemma ws_prefix_len_plain c s : plain_byte c = true -> ws_prefix_len (String c s) = None.
Proof.
  intros H. destruct c as [[] [] [] [] [] [] [] []]; try discriminate H;
    destruct s as [|b [|k r]]; reflexivity.
Qed.

Lemma ws_lex_plain f s :
  String.length s <= f -> all_plain s = true ->
  Forall (fun t => t.1 = false) (ws_lex f s) /\ concat_tokens (ws_lex f s) = s.
Proof.
  revert f. induction s as [|c s IH]; intros f Hf Hs.
  - destruct f; split; [constructor | reflexivity | constructor | reflexivity].
  - destruct f as [|f]; [simpl in Hf; lia|].
    simpl in Hs. apply andb_prop in Hs as [Hc Hs].
    cbn [ws_lex]. rewrite (ws_prefix_len_plain c s Hc).
    destruct (IH f) as [F C]; [simpl in Hf; lia | exact Hs |].
    split; [constructor; [reflexivity | exact F]|].
    unfold concat_tokens. cbn [foldr]. fold (concat_tokens (ws_lex f s)). rewrite C. reflexivity.
Qed.

Lemma drop_ws_tokens_false l : Forall (fun t => t.1 = false) l -> drop_ws_tokens l = l.
Proof. intros H. destruct H as [|[b x] l Hb _]; [reflexivity|]. simpl in Hb. subst b. reflexivity. Qed.

Lemma trim_plain s : all_plain s = true -> trim s = s.
Proof.
  intros H. unfold trim, tokens.
  destruct (ws_lex_plain (String.length s) s) as [F C]; [lia | exact H |].
  rewrite (drop_ws_tokens_false _ F).
  assert (F' : Forall (fun t => t.1 = false) (reverse (ws_lex (String.length s) s)))
    by (apply Forall_reverse; exact F).
  rewrite (drop_ws_tokens_false _ F'), reverse_involutive. exact C.
Qed.

Lemma all_plain_app a b : all_plain (a +:+ b) = all_plain a && all_plain b.
Proof. induction a as [|c a IH]; simpl; [reflexivity | rewrite IH; apply andb_assoc]. Qed.

Lemma digit_plain c : is_digit c = true -> plain_byte c = true.
Proof.
  unfold is_digit, plain_byte. intros H. apply andb_prop in H as [H1 H2].
  apply Nat.leb_le in H1, H2. set (n := Ascii.nat_of_ascii c) in *.
  destruct (Nat.leb_spec 9 n), (Nat.leb_spec n 13), (Nat.eqb_spec n 32), (Nat.eqb_spec n 194),
    (Nat.eqb_spec n 225), (Nat.eqb_spec n 226), (Nat.eqb_spec n 227), (Nat.eqb_spec n 239);
    simpl; try reflexivity; lia.
Qed.

Lemma all_digits_plain s : all_digits s = true -> all_plain s = true.
Proof.
  induction s as [|c s IH]; simpl; [auto|]. intros H. apply andb_prop in H as [H1 H2].
  rewrite digit_plain, IH; auto.
Qed.

Lemma match_date2_some s y mo d :
  match_date2 s = Some (y, mo, d) ->
  digit_string 4 y /\ digit_string 2 mo /\ digit_string 2 d.
Proof.
  unfold match_date2. intros H. apply search_some in H as [t H]. unfold date2_at in H.
  destruct (digits_n 4 t) as [[y' r1]|] eqn:E1; [|discriminate].
  destruct (strip_lit NEN r1) as [r2|]; [|discriminate].
  destruct (digits_n 2 r2) as [[mo' r3]|] eqn:E2; [|discriminate].
  destruct (strip_lit GETSU r3) as [r4|]; [|discriminate].
  destruct (digits_n 2 r4) as [[d' r5]|] eqn:E3; [|discriminate].
  destruct (strip_lit NICHI r5) as [r6|]; [|discriminate].
  injection H as <- <- <-.
  apply digits_n_some in E1 as [_ ?], E2 as [_ ?], E3 as [_ ?]. auto.
Qed.

Lemma trim_date_text s g : match_date2 s = Some g -> trim (date_text g) = date_text g.
Proof.
  destruct g as [[y mo] d]. intros H. apply match_date2_some in H as ([_ Hy] & [_ Hm] & [_ Hd]).
  apply trim_plain. unfold date_text.
  rewrite !all_plain_app, (all_digits_plain y), (all_digits_plain mo), (all_digits_plain d) by assumption. reflexivity.
Qed.

(** part_000: the first header whose trimmed text is 利用期限 and that has
    a sibling cell decides: a cell holding a zero-padded date yields exactly
    that date, any other cell its trimmed text. *)
Theorem old_getExpirationDate_first_date env rows k w pre th td post :
  env_fail env (trace w) (EvEvaluateThTd k) = None ->
  rows k = (pre ++ (th, Some td) :: post)%list ->
  Forall old_skipped pre ->
  trim th = EXPIRY_LABEL ->
  snd (old_getExpirationDate env rows k w) =
    Ok (match match_date2 td with Some g => date_text g | None => trim td end).
Proof.
  intros Hf Hr Hpre Hth. unfold old_getExpirationDate, op. rewrite Hf. cbn.
  rewrite Hr. clear Hr. induction Hpre as [|[th' sib] pre Hs _ IH]; cbn [app old_scan_th].
  - rewrite Hth, String.eqb_refl. destruct (match_date2 td) as [g|] eqn:Hg; [|reflexivity].
    f_equal. apply (trim_date_text td). exact Hg.
  - destruct Hs as [Hs | Hs]; cbn [fst snd] in Hs.
    + rewrite Hs. exact IH.
    + subst sib. destruct (String.eqb (trim th') EXPIRY_LABEL); exact IH.
Qed.

(** ** Instances of the properties above *)

Lemma scan_th_td_later_rows_ignored_witness :
  scan_th_td ([("契約", "x")] ++ (EXPIRY_LABEL, "2025年7月7日") :: [])%list =
  scan_th_td ([("契約", "x")] ++ (EXPIRY_LABEL, "2025年7月7日") :: [(EXPIRY_LABEL, "2026年1月1日")])%list.
Proof.
  apply scan_th_td_later_rows_ignored. constructor; [unfold unlabelled, EXPIRY_LABEL; simpl; discriminate | constructor].
Defined.

Lemma uploadToWebDAV_url_witness :
  trace (fst (uploadToWebDAV env_renewed recordingPath "run.webm" world_recorded)) =
    (trace world_recorded ++ [EvWebdavPut ("https://dav.example" +:+ "/" +:+
       (if String.eqb "vps" "" then "run.webm" else "vps" +:+ "/" +:+ "run.webm"))])%list.
Proof.
  apply (uploadToWebDAV_url env_renewed recordingPath "run.webm" world_recorded
           "https://dav.example" "vps" ("https://dav.example" +:+ "/") ("vps" +:+ "/")).
  - reflexivity.
  - reflexivity.
  - right; reflexivity.
  - right; reflexivity.
  - reflexivity.
  - vm_compute. discriminate.
Defined.

Lemma final_notification_precedence_witness :
  final_notification "boom" "ok" "saved" = final_notification "boom" "other" "saved" /\
  final_notification "boom" "ok" "saved" =
    "boom" +:+ (if String.eqb "saved" "" then "" else nl +:+ nl +:+ "---" +:+ nl +:+ "saved").
Proof. apply final_notification_precedence. discriminate. Defined.

Lemma captcha_failed_path_injective_witness : (2 = 2)%nat.
Proof. apply captcha_failed_path_injective. reflexivity. Defined.

Lemma classify_first_run_witness :
  ("2025年08月07日" <> UNKNOWN ->
     env_fail env_renewed (trace world_0707) (EvWriteFile expireDateFile) = None ->
     snd (classify env_renewed "2025年08月07日" "2025年08月06日" world_0707) = Ok Success /\
     fs (fst (classify env_renewed "2025年08月07日" "2025年08月06日" world_0707)) !! expireDateFile
       = Some "2025年08月07日") /\
  ("2025年08月07日" = UNKNOWN ->
     snd (classify env_renewed "2025年08月07日" "2025年08月06日" world_0707) = Ok Unchanged /\
     fs (fst (classify env_renewed "2025年08月07日" "2025年08月06日" world_0707)) = fs world_0707).
Proof. apply classify_first_run; [reflexivity | discriminate]. Defined.

Lemma setup_survives_proxy_auth_failure_witness :
  snd (setup env_proxy_auth_rejected world_0707) = Ok tt.
Proof.
  apply setup_survives_proxy_auth_failure.
  - reflexivity.
  - intros tr; reflexivity.
  - intros tr; reflexivity.
  - intros tr; reflexivity.
Defined.

Lemma cleanup_posts_outcome_witness :
  exists rest,
    In (EvTelegramPost
          ((if String.eqb (scriptErrorMessage world_info) "" then infoMessage world_info
            else scriptErrorMessage world_info) +:+ rest))
       (trace (fst (cleanup env_renewed world_info))).
Proof.
  apply cleanup_posts_outcome.
  - reflexivity.
  - intros tr; reflexivity.
  - intros tr; reflexivity.
  - right; simpl; discriminate.
Defined.

Lemma captcha_error_after_all_attempts_witness :
  exists ext, trace (fst (captcha_loop env_captcha_unsolved maxCaptchaTries 1 world_0707))
      = (trace world_0707 ++ ext)%list /\
    List.filter is_probe ext = [EvProbeCaptcha 1; EvProbeCaptcha 2; EvProbeCaptcha 3].
Proof. apply captcha_error_after_all_attempts. vm_compute. reflexivity. Defined.

Lemma old_getExpirationDate_first_date_witness :
  snd (old_getExpirationDate env_renewed old_rows_padded 0 world_0707)
    = Ok (match match_date2 "2025年08月07日 まで" with
          | Some g => date_text g | None => trim "2025年08月07日 まで" end).
Proof.
  apply (old_getExpirationDate_first_date env_renewed old_rows_padded 0 world_0707
           [("備考", Some "-"); (EXPIRY_LABEL, None)] (" " +:+ EXPIRY_LABEL +:+ " ")
           "2025年08月07日 まで" []).
  - reflexivity.
  - reflexivity.
  - constructor; [left; vm_compute; reflexivity|].
    constructor; [right; reflexivity | constructor].
  - vm_compute. reflexivity.
Defined.
